(** * AstraMindOS: storage layer, AI gateway and request orchestrator

    A shallow embedding of [server/storage.ts] (class [MemStorage]),
    [server/gemini.ts] ([chatWithAI], [generateDailySummary]) and
    [server/routes.ts] (the [/api/chat], [/api/goals/:id] and
    [/api/notes/:id] handlers), followed by the properties of the
    specification stated on them.

    Conventions.
    - Request bodies and the entities that PATCH handlers merge them into are
      JavaScript objects: finite maps from property names to values.
    - A JavaScript [Map] iterates in insertion order, so the five stores are
      association lists kept in that order.
    - [crypto.randomUUID()], [new Date()], the generative-text provider,
      [JSON.parse] and the string conversion of template literals are
      supplied by a [Runtime]; the store carries how many ids and clock
      readings were consumed so far.
    - One request is processed at a time: interleavings of other requests
      during the awaited provider call are outside this model.
    - The listings of conversations, goals, notes and activities, the
      remaining CRUD handlers and the daily summary handler are not embedded:
      no statement below is about them. *)

From Stdlib Require Import ZArith Lia Permutation Sorted.
From stdpp Require Import gmap strings list pretty.

#[local] Set Warnings "-register-all".
#[local] Open Scope string_scope.

(** ** JavaScript values, strings, maps and sorting *)

Module Js.

(** Values as they travel through the handlers.  Numbers are restricted to
    integers and a [Date] is its epoch time in milliseconds. *)
Inductive value : Type :=
  | VUndef
  | VNull
  | VBool (b : bool)
  | VNum (n : Z)
  | VStr (s : string)
  | VDate (t : Z)
  | VArr (items : list value)
  | VObj (props : gmap string value).

(** An object literal / parsed JSON object. *)
Abbreviation obj := (gmap string value).

(** [o.k]: reading an absent property yields [undefined]. *)
Definition prop (o : obj) (k : string) : value := default VUndef (o !! k).

(** ToBoolean. *)
Definition truthy (v : value) : bool :=
  match v with
  | VUndef | VNull => false
  | VBool b => b
  | VNum n => negb (n =? 0)%Z
  | VStr s => negb (String.eqb s "")
  | VDate _ | VArr _ | VObj _ => true
  end.

(** [typeof v === "string"]. *)
Definition typeof_string (v : value) : bool :=
  match v with VStr _ => true | _ => false end.

(** [v === true]. *)
Definition is_true (v : value) : bool :=
  match v with VBool true => true | _ => false end.

(** [a === b] on primitives.  Two object references are never identified:
    the handlers only compare ids, which are strings. *)
Definition strict_equals (a b : value) : bool :=
  match a, b with
  | VUndef, VUndef | VNull, VNull => true
  | VBool x, VBool y => Bool.eqb x y
  | VNum x, VNum y => (x =? y)%Z
  | VStr x, VStr y => String.eqb x y
  | _, _ => false
  end.

(** [a ?? d]. *)
Definition nullish_or (a d : value) : value :=
  match a with VUndef | VNull => d | _ => a end.

(** [a || d]. *)
Definition falsy_or (a d : value) : value := if truthy a then a else d.

(** [{...a, ...b}]: properties of [b] win. *)
Definition spread (a b : obj) : obj := b ∪ a.

(** *** Strings.  A character stands for one UTF-16 code unit. *)

(** [s.substring(a, b)] for non-negative arguments: both are clamped to the
    length and swapped when out of order. *)
Definition substring (a b : nat) (s : string) : string :=
  let len := String.length s in
  let a' := Nat.min a len in
  let b' := Nat.min b len in
  String.substring (Nat.min a' b') (Nat.max a' b' - Nat.min a' b') s.

(** The double quote and the line feed, for templates that contain them. *)
Definition dquote : string := String (Ascii.ascii_of_nat 34) EmptyString.

Definition newline : string := String (Ascii.ascii_of_nat 10) EmptyString.

(** *** [Map<string, V>] in insertion order *)

Section OrderedMap.
Context {V : Type}.

(** [m.get(k)] *)
Fixpoint Map_get (k : string) (m : list (string * V)) : option V :=
  match m with
  | [] => None
  | (k', v) :: r => if String.eqb k k' then Some v else Map_get k r
  end.

(** [m.set(k, v)]: an existing key keeps its position, a new one goes last. *)
Fixpoint Map_set (k : string) (v : V) (m : list (string * V)) : list (string * V) :=
  match m with
  | [] => [(k, v)]
  | (k', v') :: r =>
      if String.eqb k k' then (k, v) :: r else (k', v') :: Map_set k v r
  end.

(** [m.delete(k)]: the entries that remain. *)
Fixpoint Map_remove (k : string) (m : list (string * V)) : list (string * V) :=
  match m with
  | [] => []
  | (k', v') :: r =>
      if String.eqb k k' then r else (k', v') :: Map_remove k r
  end.

(** [m.has(k)], which is also what [m.delete(k)] returns. *)
Definition Map_has (k : string) (m : list (string * V)) : bool :=
  match Map_get k m with Some _ => true | None => false end.

(** [Array.from(m.values())] *)
Definition Map_values (m : list (string * V)) : list V := m.*2.

(** [m.get(k)] for a key of any type: the stores only hold string keys, so
    a key that is not a string finds nothing. *)
Definition Map_get_value (k : value) (m : list (string * V)) : option V :=
  match k with VStr s => Map_get s m | _ => None end.
End OrderedMap.

(** *** [Array.prototype.sort(cmp)]

    The language requires the sort to be stable; with a consistent comparator
    its result is then unique, and a stable insertion sort computes it. *)

Section Sort.
Context {A : Type} (cmp : A → A → Z).

Fixpoint sort_insert (x : A) (l : list A) : list A :=
  match l with
  | [] => [x]
  | y :: r => if (cmp x y <=? 0)%Z then x :: y :: r else y :: sort_insert x r
  end.

Definition Array_sort (l : list A) : list A := foldr sort_insert [] l.

(** The order the comparator induces: [a] may stand before [b]. *)
Definition before (a b : A) : Prop := (cmp a b ≤ 0)%Z.
End Sort.

End Js.

Import Js.

(** ** The runtime the server code runs on *)

(** A request to the provider's [models.generateContent]. *)
Inductive GenContents : Type :=
  | Turns (turns : list (string * string))   (* role, text of the single part *)
  | Prompt (text : string).

Record GenRequest : Type := {
  model : string;
  systemInstruction : option string;
  responseMimeType : option string;
  responseSchema_array_of_strings : bool;
  contents : GenContents;
}.

(** The provider either rejects (the awaited call throws) or resolves to a
    response whose [text] may be [undefined]. *)
Inductive ProviderResult : Type :=
  | Rejects
  | Resolves (text : option string).

Class Runtime : Type := {
  (** the k-th value returned by [randomUUID()] *)
  randomUUID : nat → string;
  (** the k-th reading of the clock by [new Date()], in milliseconds *)
  Date_now : nat → Z;
  (** [ai.models.generateContent] *)
  generateContent : GenRequest → ProviderResult;
  (** [JSON.parse]; [None] when it throws a SyntaxError *)
  JSON_parse : string → option value;
  (** ToString of a value interpolated in a template literal *)
  ToString : value → string;
  (** [v > 0] for a value that is neither a number nor absent *)
  coerced_gt_zero : value → bool;
}.

(** Interpolation [`${v}`]: a string is inserted as it is. *)
Definition interpolate `{Runtime} (v : value) : string :=
  match v with VStr s => s | _ => ToString v end.

(** ** server/storage.ts *)

Module Message.
Record t : Type := {
  id : string;
  conversationId : value;
  role : string;
  content : string;
  createdAt : Z;
}.
End Message.

Module Activity.
Record t : Type := {
  id : string;
  type : string;
  description : string;
  createdAt : Z;
}.
End Activity.

(** [InsertMessage] and [InsertActivity]: the entity without the stamped fields. *)
Record InsertMessage : Type := {
  im_conversationId : value;
  im_role : string;
  im_content : string;
}.

Record InsertActivity : Type := {
  ia_type : string;
  ia_description : string;
}.

(** The five private maps of [MemStorage].  Conversations, goals and notes
    are kept as objects because their update operations merge whatever
    object the caller passes. *)
Record MemStorage : Type := {
  conversations : list (string * obj);
  messages : list (string * Message.t);
  goals : list (string * obj);
  notes : list (string * obj);
  activities : list (string * Activity.t);
}.

(** [new MemStorage()] *)
Definition MemStorage_new : MemStorage :=
  {| conversations := []; messages := []; goals := []; notes := [];
     activities := [] |}.

Definition with_conversations (c : list (string * obj)) (s : MemStorage) : MemStorage :=
  {| conversations := c; messages := messages s; goals := goals s;
     notes := notes s; activities := activities s |}.

Definition with_messages (m : list (string * Message.t)) (s : MemStorage) : MemStorage :=
  {| conversations := conversations s; messages := m; goals := goals s;
     notes := notes s; activities := activities s |}.

Definition with_goals (g : list (string * obj)) (s : MemStorage) : MemStorage :=
  {| conversations := conversations s; messages := messages s; goals := g;
     notes := notes s; activities := activities s |}.

Definition with_notes (n : list (string * obj)) (s : MemStorage) : MemStorage :=
  {| conversations := conversations s; messages := messages s; goals := goals s;
     notes := n; activities := activities s |}.

Definition with_activities (a : list (string * Activity.t)) (s : MemStorage) : MemStorage :=
  {| conversations := conversations s; messages := messages s; goals := goals s;
     notes := notes s; activities := a |}.

(** The process state: the singleton [storage] and the position in the two
    runtime sequences. *)
Record World : Type := {
  storage : MemStorage;
  uuids_drawn : nat;
  clock_reads : nat;
}.

Definition M (A : Type) : Type := World → A * World.

#[export] Instance M_ret : MRet M := λ A (a : A) w, (a, w).
#[export] Instance M_bind : MBind M :=
  λ A B (f : A → M B) (m : M A) w, let '(a, w') := m w in f a w'.

Definition get_storage : M MemStorage := λ w, (storage w, w).

Definition modify_storage (f : MemStorage → MemStorage) : M unit :=
  λ w, (tt, {| storage := f (storage w); uuids_drawn := uuids_drawn w;
               clock_reads := clock_reads w |}).

Module Storage.
Section WithRuntime.
Context `{Runtime}.

(** [randomUUID()] *)
Definition fresh_uuid : M string :=
  λ w, (randomUUID (uuids_drawn w),
        {| storage := storage w; uuids_drawn := S (uuids_drawn w);
           clock_reads := clock_reads w |}).

(** [new Date()] *)
Definition new_Date : M Z :=
  λ w, (Date_now (clock_reads w),
        {| storage := storage w; uuids_drawn := uuids_drawn w;
           clock_reads := S (clock_reads w) |}).

(** *** Conversations *)

Definition getConversation (id : value) : M (option obj) :=
  s ← get_storage; mret (Map_get_value id (conversations s)).

Definition createConversation (insertConversation : obj) : M obj :=
  id ← fresh_uuid;
  now ← new_Date;
  let conversation : obj :=
    <["updatedAt" := VDate now]>
      (<["createdAt" := VDate now]> (<["id" := VStr id]> insertConversation)) in
  modify_storage (λ s, with_conversations (Map_set id conversation (conversations s)) s);;
  mret conversation.

(** The handlers pass ids taken from a request body, hence any value; a key
    that is not a string is in no store. *)
Definition updateConversation (id : value) (data : obj) : M (option obj) :=
  s ← get_storage;
  match id with
  | VStr k =>
      match Map_get k (conversations s) with
      | None => mret None
      | Some conversation =>
          now ← new_Date;
          let updated : obj :=
            <["updatedAt" := VDate now]>
              (<["id" := prop conversation "id"]> (spread conversation data)) in
          modify_storage
            (λ s, with_conversations (Map_set k updated (conversations s)) s);;
          mret (Some updated)
      end
  | _ => mret None
  end.

Definition deleteConversation (id : string) : M bool :=
  s ← get_storage;
  modify_storage (with_conversations (Map_remove id (conversations s)));;
  mret (Map_has id (conversations s)).

(** *** Messages *)

Definition compare_createdAt_asc (a b : Message.t) : Z :=
  (Message.createdAt a - Message.createdAt b)%Z.

Definition getMessages (conversationId : value) : M (list Message.t) :=
  s ← get_storage;
  mret (Array_sort compare_createdAt_asc
          (filter (λ m, strict_equals (Message.conversationId m) conversationId = true)
                  (Map_values (messages s)))).

Definition getMessage (id : string) : M (option Message.t) :=
  s ← get_storage; mret (Map_get id (messages s)).

Definition createMessage (insertMessage : InsertMessage) : M Message.t :=
  id ← fresh_uuid;
  now ← new_Date;
  let message :=
    {| Message.id := id;
       Message.conversationId := im_conversationId insertMessage;
       Message.role := im_role insertMessage;
       Message.content := im_content insertMessage;
       Message.createdAt := now |} in
  modify_storage (λ s, with_messages (Map_set id message (messages s)) s);;
  mret message.

Definition deleteMessage (id : string) : M bool :=
  s ← get_storage;
  modify_storage (with_messages (Map_remove id (messages s)));;
  mret (Map_has id (messages s)).

(** *** Goals *)

Definition getGoal (id : string) : M (option obj) :=
  s ← get_storage; mret (Map_get id (goals s)).

Definition createGoal (insertGoal : obj) : M obj :=
  id ← fresh_uuid;
  now ← new_Date;
  let goal : obj :=
    <["updatedAt" := VDate now]>
      (<["createdAt" := VDate now]>
         (<["completed" := nullish_or (prop insertGoal "completed") (VBool false)]>
            (<["progress" := nullish_or (prop insertGoal "progress") (VNum 0)]>
               (<["id" := VStr id]> insertGoal)))) in
  modify_storage (λ s, with_goals (Map_set id goal (goals s)) s);;
  mret goal.

Definition updateGoal (id : string) (data : obj) : M (option obj) :=
  s ← get_storage;
  match Map_get id (goals s) with
  | None => mret None
  | Some goal =>
      now ← new_Date;
      let updated : obj :=
        <["updatedAt" := VDate now]>
          (<["id" := prop goal "id"]> (spread goal data)) in
      modify_storage (λ s, with_goals (Map_set id updated (goals s)) s);;
      mret (Some updated)
  end.

Definition deleteGoal (id : string) : M bool :=
  s ← get_storage;
  modify_storage (with_goals (Map_remove id (goals s)));;
  mret (Map_has id (goals s)).

(** *** Notes *)

Definition getNote (id : string) : M (option obj) :=
  s ← get_storage; mret (Map_get id (notes s)).

Definition createNote (insertNote : obj) : M obj :=
  id ← fresh_uuid;
  now ← new_Date;
  let note : obj :=
    <["updatedAt" := VDate now]>
      (<["createdAt" := VDate now]>
         (<["tags" := falsy_or (prop insertNote "tags") (VArr [])]>
            (<["id" := VStr id]> insertNote))) in
  modify_storage (λ s, with_notes (Map_set id note (notes s)) s);;
  mret note.

Definition updateNote (id : string) (data : obj) : M (option obj) :=
  s ← get_storage;
  match Map_get id (notes s) with
  | None => mret None
  | Some note =>
      now ← new_Date;
      let updated : obj :=
        <["updatedAt" := VDate now]>
          (<["id" := prop note "id"]> (spread note data)) in
      modify_storage (λ s, with_notes (Map_set id updated (notes s)) s);;
      mret (Some updated)
  end.

Definition deleteNote (id : string) : M bool :=
  s ← get_storage;
  modify_storage (with_notes (Map_remove id (notes s)));;
  mret (Map_has id (notes s)).

(** *** Activities *)

Definition createActivity (insertActivity : InsertActivity) : M Activity.t :=
  id ← fresh_uuid;
  now ← new_Date;
  let activity :=
    {| Activity.id := id;
       Activity.type := ia_type insertActivity;
       Activity.description := ia_description insertActivity;
       Activity.createdAt := now |} in
  modify_storage (λ s, with_activities (Map_set id activity (activities s)) s);;
  mret activity.

(** A sequence of insertions, in the order given; the conversation ids of
    the inserted messages are arbitrary. *)
Fixpoint insert_all (inserts : list InsertMessage) : M unit :=
  match inserts with
  | [] => mret tt
  | insertMessage :: rest => createMessage insertMessage;; insert_all rest
  end.

Definition compare_createdAt_desc (a b : Activity.t) : Z :=
  (Activity.createdAt b - Activity.createdAt a)%Z.

Definition getActivities : M (list Activity.t) :=
  s ← get_storage;
  mret (Array_sort compare_createdAt_desc (Map_values (activities s))).

End WithRuntime.
End Storage.

(** ** shared/schema.ts

    What the zod schemas derived from the table definitions accept: a text
    column is a string, an integer column a number, a boolean column a
    boolean, a timestamp column a [Date]; a column that is not [notNull] may
    also be [null]; a column with a default or without [notNull] may be left
    out. *)

Module Schema.

Definition is_text (v : value) : bool :=
  match v with VStr _ => true | _ => false end.

Definition is_integer (v : value) : bool :=
  match v with VNum _ => true | _ => false end.

Definition is_boolean (v : value) : bool :=
  match v with VBool _ => true | _ => false end.

Definition is_timestamp (v : value) : bool :=
  match v with VDate _ => true | _ => false end.

Definition is_text_array (v : value) : bool :=
  match v with VArr items => forallb is_text items | _ => false end.

Definition nullable (check : value → bool) (v : value) : bool :=
  match v with VNull => true | _ => check v end.

Definition required (check : value → bool) (o : obj) (k : string) : bool :=
  match o !! k with Some v => check v | None => false end.

Definition optional (check : value → bool) (o : obj) (k : string) : bool :=
  match o !! k with None | Some VUndef => true | Some v => check v end.

(** [insertGoalSchema.parse(body)] succeeds. *)
Definition insertGoalSchema_accepts (body : obj) : bool :=
  required is_text body "title"
  && optional (nullable is_text) body "description"
  && required is_text body "category"
  && optional is_integer body "progress"
  && optional (nullable is_timestamp) body "targetDate"
  && optional is_boolean body "completed".

(** [insertNoteSchema.parse(body)] succeeds. *)
Definition insertNoteSchema_accepts (body : obj) : bool :=
  required is_text body "title"
  && required is_text body "content"
  && optional (nullable is_text_array) body "tags".



(** [insertConversationSchema] and [insertActivitySchema]. *)
Definition insertConversationSchema_accepts (body : obj) : bool :=
  required is_text body "title".


(** What [parse] returns on success: the object schemas drop the keys they
    do not declare. *)
Definition strip (keys : list string) (body : obj) : obj :=
  filter (λ kv : string * value, kv.1 ∈ keys) body.

Definition conversation_keys : list string := ["title"].

Definition goal_keys : list string :=
  ["title"; "description"; "category"; "progress"; "targetDate"; "completed"].

Definition note_keys : list string := ["title"; "content"; "tags"].

(** [schema.parse(body)]; [None] when it throws. *)
Definition insertConversationSchema_parse (body : obj) : option obj :=
  if insertConversationSchema_accepts body
  then Some (strip conversation_keys body) else None.

Definition insertGoalSchema_parse (body : obj) : option obj :=
  if insertGoalSchema_accepts body then Some (strip goal_keys body) else None.

Definition insertNoteSchema_parse (body : obj) : option obj :=
  if insertNoteSchema_accepts body then Some (strip note_keys body) else None.

(** The activity schema yields the two strings of an [InsertActivity]. *)
Definition insertActivitySchema_parse (body : obj) : option InsertActivity :=
  match body !! "type", body !! "description" with
  | Some (VStr type), Some (VStr description) =>
      Some {| ia_type := type; ia_description := description |}
  | _, _ => None
  end.

End Schema.

(** ** server/gemini.ts *)

(** What an awaited call yields: a value, or a thrown [Error]. *)
Inductive outcome (A : Type) : Type :=
  | Returned (a : A)
  | Thrown (message : string).
Arguments Returned {A} a.
Arguments Thrown {A} message.

Module Gemini.

Definition systemPrompt : string :=
  "You are AstraMind, an intelligent AI assistant and personal life operating system. You help users manage their life, learning, and creativity through natural conversation."
  +:+ newline +:+ newline
  +:+ "Your capabilities:" +:+ newline
  +:+ "- Help users plan their day and set goals" +:+ newline
  +:+ "- Provide learning support and explain complex topics" +:+ newline
  +:+ "- Offer productivity insights and suggestions" +:+ newline
  +:+ "- Be conversational, supportive, and personalized" +:+ newline
  +:+ "- Remember context from the conversation" +:+ newline +:+ newline
  +:+ "Respond naturally and helpfully. Keep responses concise but informative.".

Definition reply_fallback : string :=
  "I'm sorry, I couldn't generate a response. Please try again.".

(** The list returned when the parsed insights are empty. *)
Definition insights_when_empty : value :=
  VArr [VStr "Keep up the great work!"; VStr "Every step forward counts."].

(** The list returned from the [catch] block. *)
Definition insights_when_failed : value :=
  VArr [VStr "Keep building your momentum!"; VStr "Great progress today."].

(** [text || d] for [text : string | undefined]. *)
Definition text_or (text : option string) (d : string) : string :=
  match text with
  | Some s => if String.eqb s "" then d else s
  | None => d
  end.

Section WithRuntime.
Context `{Runtime}.

Definition chatWithAI (message : string)
    (conversationHistory : list (string * string)) : outcome string :=
  let contents :=
    (map (λ msg : string * string,
            (if String.eqb msg.1 "assistant" then "model" else "user", msg.2))
         conversationHistory
     ++ [("user", message)])%list in
  match generateContent
          {| model := "gemini-2.5-flash";
             systemInstruction := Some systemPrompt;
             responseMimeType := None;
             responseSchema_array_of_strings := false;
             contents := Turns contents |} with
  | Resolves text => Returned (text_or text reply_fallback)
  | Rejects => Thrown "Failed to get AI response"
  end.

Definition summary_prompt (chats goals notes : Z) : string :=
  "Generate 3-4 brief, encouraging insights for a user's daily summary based on their activity:"
  +:+ newline
  +:+ "- Chat conversations: " +:+ interpolate (VNum chats) +:+ newline
  +:+ "- Goals worked on: " +:+ interpolate (VNum goals) +:+ newline
  +:+ "- Notes created: " +:+ interpolate (VNum notes) +:+ newline +:+ newline
  +:+ "Provide insights as a JSON array of strings. Focus on productivity patterns, suggestions, and encouragement."
  +:+ newline
  +:+ "Example: [" +:+ dquote +:+ "Great engagement today with "
  +:+ interpolate (VNum chats) +:+ " conversations!" +:+ dquote +:+ ", "
  +:+ dquote +:+ "Keep the momentum on your " +:+ interpolate (VNum goals)
  +:+ " goals" +:+ dquote +:+ ", "
  +:+ dquote +:+ "Your " +:+ interpolate (VNum notes)
  +:+ " notes show active learning" +:+ dquote +:+ "]".

(** [insights.length > 0]; [None] when reading [length] throws a TypeError. *)
Definition length_gt_zero (insights : value) : option bool :=
  match insights with
  | VUndef | VNull => None
  | VArr items => Some (0 <? length items)%nat
  | VStr s => Some (0 <? String.length s)%nat
  | VBool _ | VNum _ | VDate _ => Some false
  | VObj props =>
      Some match props !! "length" with
           | None | Some VUndef => false
           | Some (VNum n) => (0 <? n)%Z
           | Some v => coerced_gt_zero v
           end
  end.

(** The body of the [try] block of [generateDailySummary]. *)
Definition generateDailySummary_try (chats goals notes : Z) : outcome value :=
  match generateContent
          {| model := "gemini-2.5-flash";
             systemInstruction := None;
             responseMimeType := Some "application/json";
             responseSchema_array_of_strings := true;
             contents := Prompt (summary_prompt chats goals notes) |} with
  | Rejects => Thrown "provider"
  | Resolves text =>
      match JSON_parse (text_or text "[]") with
      | None => Thrown "SyntaxError"
      | Some insights =>
          match length_gt_zero insights with
          | None => Thrown "TypeError"
          | Some true => Returned insights
          | Some false => Returned insights_when_empty
          end
      end
  end.

Definition generateDailySummary (chats goals notes : Z) : outcome value :=
  match generateDailySummary_try chats goals notes with
  | Returned insights => Returned insights
  | Thrown _ => Returned insights_when_failed
  end.

End WithRuntime.
End Gemini.

(** ** server/routes.ts *)

Inductive Json : Type :=
  | JsonError (error : string)
  | JsonChatResponse (message : Message.t) (conversationId : value)
  | JsonEntity (entity : obj).

Record Response : Type := {
  status : nat;
  json : Json;
}.

Module Routes.
Section WithRuntime.
Context `{Runtime}.

(** [POST /api/chat], cut at its early returns.

    First part: the guard on [convId].  [None] stands for the early
    [return res.status(404)]; otherwise the conversation id the rest of the
    handler works with. *)
Definition resolve_conversation (message : string) (conversationId : value)
    : M (option value) :=
  if negb (truthy conversationId) then
    let title :=
      substring 0 50 message
      +:+ (if (50 <? String.length message)%nat then "..." else "") in
    conversation ← Storage.createConversation {["title" := VStr title]};
    mret (Some (prop conversation "id"))
  else
    conversation ← Storage.getConversation conversationId;
    match conversation with
    | None => mret None
    | Some _ => mret (Some conversationId)
    end.

(** The history handed to the gateway: every listed message but the one just
    inserted, reduced to role and content. *)
Definition conversationHistory (messages : list Message.t) (userMessage : Message.t)
    : list (string * string) :=
  map (λ m, (Message.role m, Message.content m))
      (filter (λ m, Message.id m ≠ Message.id userMessage) messages).

(** Second part: from saving the user message to the response.  A throw of
    [chatWithAI] lands in the handler's [catch]. *)
Definition chat_exchange (message : string) (convId : value) : M Response :=
  userMessage ← Storage.createMessage
    {| im_conversationId := convId; im_role := "user"; im_content := message |};
  messages ← Storage.getMessages convId;
  match Gemini.chatWithAI message (conversationHistory messages userMessage) with
  | Thrown _ =>
      mret {| status := 500; json := JsonError "Failed to process chat message" |}
  | Returned aiResponse =>
      aiMessage ← Storage.createMessage
        {| im_conversationId := convId; im_role := "assistant";
           im_content := aiResponse |};
      now ← Storage.new_Date;
      Storage.updateConversation convId {["updatedAt" := VDate now]};;
      Storage.createActivity
        {| ia_type := "chat";
           ia_description :=
             "Had a conversation about: " +:+ substring 0 60 message
             +:+ (if (60 <? String.length message)%nat then "..." else "") |};;
      mret {| status := 200; json := JsonChatResponse aiMessage convId |}
  end.

(** The handler: [!message || typeof message !== "string"] rejects every
    value that is not a string and the empty string. *)
Definition post_chat (body : obj) : M Response :=
  let message := prop body "message" in
  let conversationId := prop body "conversationId" in
  match message with
  | VStr text =>
      if negb (truthy message) then
        mret {| status := 400; json := JsonError "Message is required" |}
      else
        convId ← resolve_conversation text conversationId;
        match convId with
        | None =>
            mret {| status := 404; json := JsonError "Conversation not found" |}
        | Some convId => chat_exchange text convId
        end
  | _ => mret {| status := 400; json := JsonError "Message is required" |}
  end.

(** [PATCH /api/goals/:id] *)
Definition patch_goal (id : string) (body : obj) : M Response :=
  existingGoal ← Storage.getGoal id;
  match existingGoal with
  | None => mret {| status := 404; json := JsonError "Goal not found" |}
  | Some existingGoal =>
      goal ← Storage.updateGoal id body;
      match goal with
      | None => mret {| status := 404; json := JsonError "Goal not found" |}
      | Some goal =>
          (if is_true (prop body "completed")
              && negb (truthy (prop existingGoal "completed"))
           then
             Storage.createActivity
               {| ia_type := "goal_completed";
                  ia_description :=
                    "Completed goal: " +:+ interpolate (prop goal "title") |}
           else
             Storage.createActivity
               {| ia_type := "goal_updated";
                  ia_description :=
                    "Updated goal: " +:+ interpolate (prop goal "title") |});;
          mret {| status := 200; json := JsonEntity goal |}
      end
  end.

(** [PATCH /api/notes/:id] *)
Definition patch_note (id : string) (body : obj) : M Response :=
  note ← Storage.updateNote id body;
  match note with
  | None => mret {| status := 404; json := JsonError "Note not found" |}
  | Some note =>
      Storage.createActivity
        {| ia_type := "note_updated";
           ia_description := "Updated note: " +:+ interpolate (prop note "title") |};;
      mret {| status := 200; json := JsonEntity note |}
  end.

End WithRuntime.
End Routes.

(** The other handlers of [server/routes.ts].  Each answers with a status
    code and a JSON value. *)

Record DailySummary : Type := {
  date : string;
  totalChats : nat;
  goalsCompleted : nat;
  notesCreated : nat;
  insights : value;
}.

Inductive Reply : Type :=
  | ReplyError (error : string)
  | ReplyEntity (entity : obj)
  | ReplySuccess
  | ReplyMessages (listed : list Message.t)
  | ReplyActivity (activity : Activity.t)
  | ReplyActivities (listed : list Activity.t)
  | ReplySummary (summary : DailySummary).

Record Answer : Type := {
  code : nat;
  reply : Reply;
}.

Module Rest.
Section WithRuntime.
Context `{Runtime}.

(** [format(date, "yyyy-MM-dd")] of date-fns: the calendar day of a time in
    the zone of the process. *)
Variable format_day : Z → string.

(** [GET /api/conversations/:id] *)
Definition get_conversation (id : string) : M Answer :=
  conversation ← Storage.getConversation (VStr id);
  match conversation with
  | None => mret {| code := 404; reply := ReplyError "Conversation not found" |}
  | Some conversation => mret {| code := 200; reply := ReplyEntity conversation |}
  end.

(** [POST /api/conversations] *)
Definition post_conversation (body : obj) : M Answer :=
  match Schema.insertConversationSchema_parse body with
  | None => mret {| code := 400; reply := ReplyError "Invalid conversation data" |}
  | Some data =>
      conversation ← Storage.createConversation data;
      mret {| code := 200; reply := ReplyEntity conversation |}
  end.

(** [PATCH /api/conversations/:id] *)
Definition patch_conversation (id : string) (body : obj) : M Answer :=
  conversation ← Storage.updateConversation (VStr id) body;
  match conversation with
  | None => mret {| code := 404; reply := ReplyError "Conversation not found" |}
  | Some conversation => mret {| code := 200; reply := ReplyEntity conversation |}
  end.

(** [DELETE /api/conversations/:id] *)
Definition delete_conversation (id : string) : M Answer :=
  success ← Storage.deleteConversation id;
  if negb success
  then mret {| code := 404; reply := ReplyError "Conversation not found" |}
  else mret {| code := 200; reply := ReplySuccess |}.

(** [GET /api/conversations/:conversationId/messages] *)
Definition get_messages (conversationId : string) : M Answer :=
  messages ← Storage.getMessages (VStr conversationId);
  mret {| code := 200; reply := ReplyMessages messages |}.

(** [GET /api/goals/:id] *)
Definition get_goal (id : string) : M Answer :=
  goal ← Storage.getGoal id;
  match goal with
  | None => mret {| code := 404; reply := ReplyError "Goal not found" |}
  | Some goal => mret {| code := 200; reply := ReplyEntity goal |}
  end.

(** [POST /api/goals] *)
Definition post_goal (body : obj) : M Answer :=
  match Schema.insertGoalSchema_parse body with
  | None => mret {| code := 400; reply := ReplyError "Invalid goal data" |}
  | Some data =>
      goal ← Storage.createGoal data;
      Storage.createActivity
        {| ia_type := "goal_created";
           ia_description := "Created goal: " +:+ interpolate (prop goal "title") |};;
      mret {| code := 200; reply := ReplyEntity goal |}
  end.

(** [DELETE /api/goals/:id] *)
Definition delete_goal (id : string) : M Answer :=
  success ← Storage.deleteGoal id;
  if negb success
  then mret {| code := 404; reply := ReplyError "Goal not found" |}
  else mret {| code := 200; reply := ReplySuccess |}.

(** [GET /api/notes/:id] *)
Definition get_note (id : string) : M Answer :=
  note ← Storage.getNote id;
  match note with
  | None => mret {| code := 404; reply := ReplyError "Note not found" |}
  | Some note => mret {| code := 200; reply := ReplyEntity note |}
  end.

(** [POST /api/notes] *)
Definition post_note (body : obj) : M Answer :=
  match Schema.insertNoteSchema_parse body with
  | None => mret {| code := 400; reply := ReplyError "Invalid note data" |}
  | Some data =>
      note ← Storage.createNote data;
      Storage.createActivity
        {| ia_type := "note_created";
           ia_description := "Created note: " +:+ interpolate (prop note "title") |};;
      mret {| code := 200; reply := ReplyEntity note |}
  end.

(** [DELETE /api/notes/:id] *)
Definition delete_note (id : string) : M Answer :=
  success ← Storage.deleteNote id;
  if negb success
  then mret {| code := 404; reply := ReplyError "Note not found" |}
  else mret {| code := 200; reply := ReplySuccess |}.

(** [GET /api/activities] *)
Definition get_activities : M Answer :=
  activities ← Storage.getActivities;
  mret {| code := 200; reply := ReplyActivities activities |}.

(** [POST /api/activities] *)
Definition post_activity (body : obj) : M Answer :=
  match Schema.insertActivitySchema_parse body with
  | None => mret {| code := 400; reply := ReplyError "Invalid activity data" |}
  | Some data =>
      activity ← Storage.createActivity data;
      mret {| code := 200; reply := ReplyActivity activity |}
  end.

(** [GET /api/summary/daily] *)
Definition get_daily_summary : M Answer :=
  activities ← Storage.getActivities;
  now ← Storage.new_Date;
  let today := format_day now in
  let todayActivities :=
    filter (λ a, format_day (Activity.createdAt a) = today) activities in
  let totalChats :=
    length (filter (λ a, Activity.type a = "chat") todayActivities) in
  let goalsCompleted :=
    length (filter (λ a, Activity.type a = "goal_completed") todayActivities) in
  let notesCreated :=
    length (filter (λ a, Activity.type a = "note_created") todayActivities) in
  match Gemini.generateDailySummary
          (Z.of_nat totalChats) (Z.of_nat goalsCompleted) (Z.of_nat notesCreated) with
  | Returned insights =>
      mret {| code := 200;
              reply := ReplySummary
                         {| date := today; totalChats := totalChats;
                            goalsCompleted := goalsCompleted;
                            notesCreated := notesCreated; insights := insights |} |}
  | Thrown _ =>
      mret {| code := 500; reply := ReplyError "Failed to generate daily summary" |}
  end.

End WithRuntime.
End Rest.

(** The three entity types that have an update operation. *)
Inductive updatable : Type := Conversation | Goal | Note.

(** ** A concrete runtime and concrete stores, for running the handlers *)

Module Sample.

(** Ids [uuid-0], [uuid-1], ...; a clock that advances by one millisecond per
    reading; a provider and a parser with a fixed answer. *)
Definition runtime (reply : ProviderResult) (parsed : option value) : Runtime :=
  {| randomUUID := λ k, "uuid-" +:+ pretty k;
     Date_now := λ k, (1700000000000 + Z.of_nat k)%Z;
     generateContent := λ _, reply;
     JSON_parse := λ _, parsed;
     ToString := λ _, "[value]";
     coerced_gt_zero := λ _, false |}.

Definition answering : Runtime := runtime (Resolves (Some "Sure.")) None.

Definition failing : Runtime := runtime Rejects None.

Definition empty_insights : Runtime := runtime (Resolves (Some "[]")) (Some (VArr [])).

(** A freshly started process. *)
Definition fresh_world : World :=
  {| storage := MemStorage_new; uuids_drawn := 0; clock_reads := 0 |}.

(** A process whose store already holds one conversation, one goal and one
    note, each created through the store. *)
Definition seeded_conversation : obj :=
  (@Storage.createConversation answering {["title" := VStr "Trip"]} fresh_world).1.

Definition world_1 : World :=
  (@Storage.createConversation answering {["title" := VStr "Trip"]} fresh_world).2.

Definition seeded_goal : obj :=
  (@Storage.createGoal answering
     {["title" := VStr "Learn X"; "category" := VStr "learning"]} world_1).1.

Definition world_2 : World :=
  (@Storage.createGoal answering
     {["title" := VStr "Learn X"; "category" := VStr "learning"]} world_1).2.

Definition seeded_note : obj :=
  (@Storage.createNote answering
     {["title" := VStr "Idea"; "content" := VStr "Write it down"]} world_2).1.

Definition seeded_world : World :=
  (@Storage.createNote answering
     {["title" := VStr "Idea"; "content" := VStr "Write it down"]} world_2).2.

(** The entity of each type stored in [seeded_world], and its key. *)
Definition seeded (e : updatable) : string * obj :=
  match e with
  | Conversation => ("uuid-0", seeded_conversation)
  | Goal => ("uuid-1", seeded_goal)
  | Note => ("uuid-2", seeded_note)
  end.

(** Three insertions that alternate between two conversations. *)
Definition interleaved : list InsertMessage :=
  [ {| im_conversationId := VStr "a"; im_role := "user"; im_content := "one" |};
    {| im_conversationId := VStr "b"; im_role := "user"; im_content := "two" |};
    {| im_conversationId := VStr "a"; im_role := "assistant"; im_content := "three" |} ].

(** A message of seventy characters. *)
Definition seventy : string :=
  "0123456789012345678901234567890123456789012345678901234567890123456789".

End Sample.

(** ** Vocabulary of the statements *)

(** The object literal [{...entity, ...data, id: entity.id, updatedAt: now}]
    that the three update methods build. *)
Definition patched (now : Z) (entity data : obj) : obj :=
  <["updatedAt" := VDate now]> (<["id" := prop entity "id"]> (spread entity data)).

(** [updated] reads like [old] on every field but [updatedAt], which holds
    the time [now]. *)
Definition refreshed (now : Z) (old updated : obj) : Prop :=
  prop updated "updatedAt" = VDate now
  ∧ ∀ k, k ≠ "updatedAt" → prop updated k = prop old k.

(** The world after one more clock reading and with the store [s]. *)
Definition tick_with (s : MemStorage) (w : World) : World :=
  {| storage := s; uuids_drawn := uuids_drawn w; clock_reads := S (clock_reads w) |}.

(** Non-decreasing [createdAt]. *)
Definition createdAt_le (a b : Message.t) : Prop :=
  (Message.createdAt a ≤ Message.createdAt b)%Z.

(** The map and the update method of each updatable entity type. *)
Definition store_of (e : updatable) (s : MemStorage) : list (string * obj) :=
  match e with
  | Conversation => conversations s
  | Goal => goals s
  | Note => notes s
  end.

Definition update_of `{Runtime} (e : updatable) (id : string) (data : obj)
    : M (option obj) :=
  match e with
  | Conversation => Storage.updateConversation (VStr id) data
  | Goal => Storage.updateGoal id data
  | Note => Storage.updateNote id data
  end.

(** The world after one more id and one more clock reading, with the store [s]. *)
Definition draw_tick_with (s : MemStorage) (w : World) : World :=
  {| storage := s; uuids_drawn := S (uuids_drawn w);
     clock_reads := S (clock_reads w) |}.

(** The records the create methods build in world [w]. *)
Definition conversation_of `{Runtime} (w : World) (insertConversation : obj) : obj :=
  <["updatedAt" := VDate (Date_now (clock_reads w))]>
    (<["createdAt" := VDate (Date_now (clock_reads w))]>
       (<["id" := VStr (randomUUID (uuids_drawn w))]> insertConversation)).

Definition message_of `{Runtime} (w : World) (insertMessage : InsertMessage) : Message.t :=
  {| Message.id := randomUUID (uuids_drawn w);
     Message.conversationId := im_conversationId insertMessage;
     Message.role := im_role insertMessage;
     Message.content := im_content insertMessage;
     Message.createdAt := Date_now (clock_reads w) |}.

Definition activity_of `{Runtime} (w : World) (insertActivity : InsertActivity) : Activity.t :=
  {| Activity.id := randomUUID (uuids_drawn w);
     Activity.type := ia_type insertActivity;
     Activity.description := ia_description insertActivity;
     Activity.createdAt := Date_now (clock_reads w) |}.

(** The title the chat handler gives to a conversation it creates. *)
Definition title_of (message : string) : string :=
  substring 0 50 message +:+ (if (50 <? String.length message)%nat then "..." else "").

(** The user message the chat handler inserts in world [w], and the history
    it then hands to the gateway. *)
Definition user_message `{Runtime} (message : string) (convId : value) (w : World)
    : Message.t :=
  message_of w {| im_conversationId := convId; im_role := "user"; im_content := message |}.

Definition history_sent `{Runtime} (message : string) (convId : value) (w : World)
    : list (string * string) :=
  let '(userMessage, w1) :=
    Storage.createMessage
      {| im_conversationId := convId; im_role := "user"; im_content := message |} w in
  Routes.conversationHistory (Storage.getMessages convId w1).1 userMessage.

(** The activity the goal PATCH handler logs. *)
Definition goal_activity `{Runtime} (body existingGoal goal : obj) : InsertActivity :=
  if is_true (prop body "completed") && negb (truthy (prop existingGoal "completed"))
  then {| ia_type := "goal_completed";
          ia_description := "Completed goal: " +:+ interpolate (prop goal "title") |}
  else {| ia_type := "goal_updated";
          ia_description := "Updated goal: " +:+ interpolate (prop goal "title") |}.

(** The request [generateDailySummary] sends to the provider. *)
Definition summary_request `{Runtime} (chats goals notes : Z) : GenRequest :=
  {| model := "gemini-2.5-flash";
     systemInstruction := None;
     responseMimeType := Some "application/json";
     responseSchema_array_of_strings := true;
     contents := Prompt (Gemini.summary_prompt chats goals notes) |}.

(** An array of exactly two strings. *)
Definition two_strings (v : value) : Prop := ∃ a b, v = VArr [VStr a; VStr b].

(** The messages a sequence of insertions leaves, when the first of them
    draws the [n]-th id and reads the clock for the [c]-th time. *)
Fixpoint stamped `{Runtime} (n c : nat) (inserts : list InsertMessage) : list Message.t :=
  match inserts with
  | [] => []
  | insertMessage :: rest =>
      {| Message.id := randomUUID n;
         Message.conversationId := im_conversationId insertMessage;
         Message.role := im_role insertMessage;
         Message.content := im_content insertMessage;
         Message.createdAt := Date_now c |} :: stamped (S n) (S c) rest
  end.

(** The next [k] ids are new: different from one another and from the keys
    of [m]. *)
Definition ids_unused `{Runtime} {V : Type} (n k : nat) (m : list (string * V)) : Prop :=
  NoDup (m.*1 ++ (randomUUID <$> seq n k)).

(** ** Vocabulary of the further statements *)

(** The [id] an entity carries, as a value. *)
Definition id_of_object (o : obj) : value := prop o "id".

Definition id_of_message (m : Message.t) : value := VStr (Message.id m).

Definition id_of_activity (a : Activity.t) : value := VStr (Activity.id a).

(** A map holds no key twice and every entity sits under its own id. *)
Definition keyed {V : Type} (id_of : V → value) (m : list (string * V)) : Prop :=
  NoDup m.*1 ∧ Forall (λ kv, id_of kv.2 = VStr kv.1) m.

Definition well_formed (s : MemStorage) : Prop :=
  keyed id_of_object (conversations s)
  ∧ keyed id_of_message (messages s)
  ∧ keyed id_of_object (goals s)
  ∧ keyed id_of_object (notes s)
  ∧ keyed id_of_activity (activities s).

(** Every stored message names a stored conversation. *)
Definition references_ok (s : MemStorage) : Prop :=
  Forall
    (λ m, ∃ k, Message.conversationId m = VStr k
               ∧ is_Some (Map_get k (conversations s)))
    (Map_values (messages s)).

(** The records [createGoal] and [createNote] build in world [w]. *)
Definition goal_of `{Runtime} (w : World) (insertGoal : obj) : obj :=
  <["updatedAt" := VDate (Date_now (clock_reads w))]>
    (<["createdAt" := VDate (Date_now (clock_reads w))]>
       (<["completed" := nullish_or (prop insertGoal "completed") (VBool false)]>
          (<["progress" := nullish_or (prop insertGoal "progress") (VNum 0)]>
             (<["id" := VStr (randomUUID (uuids_drawn w))]> insertGoal)))).

Definition note_of `{Runtime} (w : World) (insertNote : obj) : obj :=
  <["updatedAt" := VDate (Date_now (clock_reads w))]>
    (<["createdAt" := VDate (Date_now (clock_reads w))]>
       (<["tags" := falsy_or (prop insertNote "tags") (VArr [])]>
          (<["id" := VStr (randomUUID (uuids_drawn w))]> insertNote))).

(** The delete method of each entity type that has an update method. *)
Definition delete_of (e : updatable) (id : string) : M bool :=
  match e with
  | Conversation => Storage.deleteConversation id
  | Goal => Storage.deleteGoal id
  | Note => Storage.deleteNote id
  end.

(** The store with the map of one entity type replaced. *)
Definition with_store_of (e : updatable) (m : list (string * obj)) (s : MemStorage)
    : MemStorage :=
  match e with
  | Conversation => with_conversations m s
  | Goal => with_goals m s
  | Note => with_notes m s
  end.

(** Every stored message names a stored conversation, and [cid] is the key
    of one. *)
Definition references_ok_with (cid : string) (s : MemStorage) : Prop :=
  references_ok s ∧ is_Some (Map_get cid (conversations s)).

(** A computation keeps a property of the store. *)
Definition keeps {A : Type} (I : MemStorage → Prop) (m : M A) : Prop :=
  ∀ w, I (storage w) → I (storage (m w).2).

(** The methods of [IStorage] that write, as calls. *)
Inductive call : Type :=
  | CreateConversation (insertConversation : obj)
  | UpdateConversation (id : value) (data : obj)
  | DeleteConversation (id : string)
  | CreateMessage (insertMessage : InsertMessage)
  | DeleteMessage (id : string)
  | CreateGoal (insertGoal : obj)
  | UpdateGoal (id : string) (data : obj)
  | DeleteGoal (id : string)
  | CreateNote (insertNote : obj)
  | UpdateNote (id : string) (data : obj)
  | DeleteNote (id : string)
  | CreateActivity (insertActivity : InsertActivity).

Definition perform `{Runtime} (c : call) : M unit :=
  match c with
  | CreateConversation insertConversation =>
      Storage.createConversation insertConversation;; mret tt
  | UpdateConversation id data => Storage.updateConversation id data;; mret tt
  | DeleteConversation id => Storage.deleteConversation id;; mret tt
  | CreateMessage insertMessage => Storage.createMessage insertMessage;; mret tt
  | DeleteMessage id => Storage.deleteMessage id;; mret tt
  | CreateGoal insertGoal => Storage.createGoal insertGoal;; mret tt
  | UpdateGoal id data => Storage.updateGoal id data;; mret tt
  | DeleteGoal id => Storage.deleteGoal id;; mret tt
  | CreateNote insertNote => Storage.createNote insertNote;; mret tt
  | UpdateNote id data => Storage.updateNote id data;; mret tt
  | DeleteNote id => Storage.deleteNote id;; mret tt
  | CreateActivity insertActivity => Storage.createActivity insertActivity;; mret tt
  end.

Fixpoint perform_all `{Runtime} (calls : list call) : M unit :=
  match calls with
  | [] => mret tt
  | c :: rest => perform c;; perform_all rest
  end.

(** The embedded endpoints, as requests, and the status each is answered
    with. *)
Inductive request : Type :=
  | GET_conversation (id : string)
  | POST_conversations (body : obj)
  | PATCH_conversation (id : string) (body : obj)
  | DELETE_conversation (id : string)
  | GET_messages (conversationId : string)
  | POST_chat (body : obj)
  | GET_goal (id : string)
  | POST_goals (body : obj)
  | PATCH_goal (id : string) (body : obj)
  | DELETE_goal (id : string)
  | GET_note (id : string)
  | POST_notes (body : obj)
  | PATCH_note (id : string) (body : obj)
  | DELETE_note (id : string)
  | GET_activities
  | POST_activities (body : obj)
  | GET_summary_daily.

Definition serve `{Runtime} (format_day : Z → string) (r : request) : M nat :=
  match r with
  | GET_conversation id => a ← Rest.get_conversation id; mret (code a)
  | POST_conversations body => a ← Rest.post_conversation body; mret (code a)
  | PATCH_conversation id body => a ← Rest.patch_conversation id body; mret (code a)
  | DELETE_conversation id => a ← Rest.delete_conversation id; mret (code a)
  | GET_messages conversationId => a ← Rest.get_messages conversationId; mret (code a)
  | POST_chat body => a ← Routes.post_chat body; mret (status a)
  | GET_goal id => a ← Rest.get_goal id; mret (code a)
  | POST_goals body => a ← Rest.post_goal body; mret (code a)
  | PATCH_goal id body => a ← Routes.patch_goal id body; mret (status a)
  | DELETE_goal id => a ← Rest.delete_goal id; mret (code a)
  | GET_note id => a ← Rest.get_note id; mret (code a)
  | POST_notes body => a ← Rest.post_note body; mret (code a)
  | PATCH_note id body => a ← Routes.patch_note id body; mret (status a)
  | DELETE_note id => a ← Rest.delete_note id; mret (code a)
  | GET_activities => a ← Rest.get_activities; mret (code a)
  | POST_activities body => a ← Rest.post_activity body; mret (code a)
  | GET_summary_daily => a ← Rest.get_daily_summary format_day; mret (code a)
  end.

Fixpoint serve_all `{Runtime} (format_day : Z → string) (requests : list request)
    : M unit :=
  match requests with
  | [] => mret tt
  | r :: rest => serve format_day r;; serve_all format_day rest
  end.

(** The DELETE handler of each entity type, and the error it answers with
    when nothing is stored under the id. *)
Definition delete_route (e : updatable) (id : string) : M Answer :=
  match e with
  | Conversation => Rest.delete_conversation id
  | Goal => Rest.delete_goal id
  | Note => Rest.delete_note id
  end.

Definition not_found (e : updatable) : string :=
  match e with
  | Conversation => "Conversation not found"
  | Goal => "Goal not found"
  | Note => "Note not found"
  end.


(** Later readings of the clock are not earlier times. *)
Definition clock_never_goes_back `{Runtime} : Prop :=
  ∀ i j : nat, (i ≤ j)%nat → (Date_now i ≤ Date_now j)%Z.

(** Newest first. *)
Definition createdAt_ge (a b : Activity.t) : Prop :=
  (Activity.createdAt b ≤ Activity.createdAt a)%Z.

(** The request [chatWithAI] sends to the provider. *)
Definition chat_request (message : string) (conversationHistory : list (string * string))
    : GenRequest :=
  {| model := "gemini-2.5-flash";
     systemInstruction := Some Gemini.systemPrompt;
     responseMimeType := None;
     responseSchema_array_of_strings := false;
     contents :=
       Turns
         (map (λ msg : string * string,
                 (if String.eqb msg.1 "assistant" then "model" else "user", msg.2))
              conversationHistory
          ++ [("user", message)])%list |}.

(** Further concrete inputs. *)
Module Scenario.

(** The day of a time: the number of its day since the epoch, in UTC. *)
Definition day (t : Z) : string := pretty (t / 86400000)%Z.

(** A goal body as a client may send it, with a key no schema knows and an
    id of its own. *)
Definition goal_body : obj :=
  {["title" := VStr "Learn X"; "category" := VStr "learning";
    "id" := VStr "mine"; "color" := VStr "red"]}.

(** A note body whose tags are [null]. *)
Definition note_body : obj :=
  {["title" := VStr "Idea"; "content" := VStr "Write it down"; "tags" := VNull]}.

(** Calls on the store, some under ids that are not stored. *)
Definition calls : list call :=
  [ CreateGoal goal_body;
    UpdateGoal "uuid-0" {["id" := VStr "forged"; "progress" := VNum 40]};
    CreateMessage
      {| im_conversationId := VStr "nowhere"; im_role := "user"; im_content := "hi" |};
    DeleteGoal "uuid-7";
    CreateNote note_body;
    DeleteNote "uuid-2" ].

(** A session: a goal is created, patched with an id of its own, a chat
    opens a conversation and continues it, and a note is created and
    deleted. *)
Definition session : list request :=
  [ POST_goals goal_body;
    PATCH_goal "uuid-0" {["id" := VStr "forged"; "completed" := VBool true]};
    POST_chat {["message" := VStr "hi"]};
    POST_chat {["message" := VStr "more"; "conversationId" := VStr "uuid-3"]};
    POST_notes note_body;
    GET_summary_daily;
    DELETE_note "uuid-9" ].

(** A runtime whose provider returns a JSON array of one insight. *)
Definition one_insight : Runtime :=
  Sample.runtime (Resolves (Some "[...]")) (Some (VArr [VStr "Nice."])).

(** [Sample.seeded_world] after a chat in its conversation was answered. *)
Definition chatted_world : World :=
  (@Routes.post_chat Sample.answering
     {["message" := VStr "hi"; "conversationId" := VStr "uuid-0"]}
     Sample.seeded_world).2.

End Scenario.

(** * Properties *)

(** ** Ordered maps *)

Section OrderedMapFacts.
Context {V : Type}.
Implicit Types (m : list (string * V)) (k : string) (v : V).

Lemma Map_get_set_eq m k v : Map_get k (Map_set k v m) = Some v.
Proof.
  induction m as [|[k' v'] m IH]; simpl.
  - by rewrite String.eqb_refl.
  - destruct (String.eqb k k') eqn:E; simpl; rewrite ?String.eqb_refl, ?E; done.
Qed.

Lemma Map_get_set_ne m k k' v : k ≠ k' → Map_get k' (Map_set k v m) = Map_get k' m.
Proof.
  intros Hne. induction m as [|[k0 v0] m IH]; simpl.
  - apply String.eqb_neq in Hne. rewrite String.eqb_sym in Hne. by rewrite Hne.
  - destruct (String.eqb k k0) eqn:E; simpl.
    + apply String.eqb_eq in E as <-.
      destruct (String.eqb k' k) eqn:E'; [|done].
      apply String.eqb_eq in E'. congruence.
    + by rewrite IH.
Qed.

Lemma Map_set_fresh m k v : Map_get k m = None → Map_set k v m = (m ++ [(k, v)])%list.
Proof.
  induction m as [|[k' v'] m IH]; simpl; [done|].
  destruct (String.eqb k k'); [done|]. intros Hm. by rewrite IH.
Qed.

Lemma Map_set_after_fresh m k v v' :
  Map_get k m = None → Map_set k v' (m ++ [(k, v)])%list = (m ++ [(k, v')])%list.
Proof.
  induction m as [|[k0 v0] m IH]; simpl.
  - by rewrite String.eqb_refl.
  - destruct (String.eqb k k0); [done|]. intros Hm. by rewrite IH.
Qed.

Lemma Map_get_app_fresh m k v : Map_get k m = None → Map_get k (m ++ [(k, v)])%list = Some v.
Proof.
  intros Hm. rewrite <- (Map_set_fresh m k v Hm). apply Map_get_set_eq.
Qed.

Lemma Map_values_app m1 m2 :
  Map_values (m1 ++ m2)%list = (Map_values m1 ++ Map_values m2)%list.
Proof. unfold Map_values. apply fmap_app. Qed.

Lemma Map_set_set m k v v' :
  Map_set k v' (Map_set k v m) = Map_set k v' m.
Proof.
  induction m as [|[k0 v0] m IH]; simpl.
  - by rewrite String.eqb_refl.
  - destruct (String.eqb k k0) eqn:E; simpl; rewrite ?String.eqb_refl, ?E, ?IH; done.
Qed.

Lemma Map_get_app_ne m k k' v :
  k ≠ k' → Map_get k' m = None → Map_get k (m ++ [(k', v)])%list = Map_get k m.
Proof.
  intros Hne Hfresh. rewrite <- (Map_set_fresh m k' v Hfresh).
  apply Map_get_set_ne. congruence.
Qed.

Lemma Map_values_keyed (key : V → string) (l : list V) :
  Map_values ((λ v, (key v, v)) <$> l) = l.
Proof. induction l as [|v l IH]; simpl; [done | by f_equal]. Qed.

Lemma Map_get_None_keys m k : Map_get k m = None ↔ k ∉ m.*1.
Proof.
  induction m as [|[k' v'] m IH]; simpl.
  - split; [intros _; apply not_elem_of_nil | done].
  - rewrite not_elem_of_cons. destruct (String.eqb k k') eqn:E.
    + apply String.eqb_eq in E. split; [done | by intros [? _]].
    + apply String.eqb_neq in E. rewrite IH. tauto.
Qed.

End OrderedMapFacts.

(** ** Sorting *)

Section SortFacts.
Context {A : Type} (cmp : A → A → Z).

Hypothesis cmp_total : ∀ a b, ¬ before cmp a b → before cmp b a.

Lemma sort_insert_Permutation x l : sort_insert cmp x l ≡ₚ x :: l.
Proof.
  induction l as [|y l IH]; simpl; [done|].
  destruct (cmp x y <=? 0)%Z; [done|].
  rewrite IH. apply perm_swap.
Qed.

Lemma Array_sort_Permutation l : Array_sort cmp l ≡ₚ l.
Proof.
  induction l as [|x l IH]; simpl; [done|].
  rewrite sort_insert_Permutation. by constructor.
Qed.

Lemma sort_insert_HdRel a x l :
  before cmp a x → HdRel (before cmp) a l → HdRel (before cmp) a (sort_insert cmp x l).
Proof.
  intros Hax Hal. destruct l as [|y l]; simpl.
  - by constructor.
  - destruct (cmp x y <=? 0)%Z; constructor; [done|].
    by inversion Hal.
Qed.

Lemma sort_insert_Sorted x l : Sorted (before cmp) l → Sorted (before cmp) (sort_insert cmp x l).
Proof.
  induction 1 as [|y l Hl IH Hy]; simpl.
  - repeat constructor.
  - destruct (cmp x y <=? 0)%Z eqn:E.
    + apply Z.leb_le in E. repeat constructor; done.
    + apply Z.leb_gt in E. constructor; [done|].
      apply sort_insert_HdRel; [|done].
      apply cmp_total. unfold before. lia.
Qed.

Lemma Array_sort_Sorted l : Sorted (before cmp) (Array_sort cmp l).
Proof.
  induction l as [|x l IH]; simpl; [constructor|].
  by apply sort_insert_Sorted.
Qed.

End SortFacts.

(** ** Strings *)






(** ** Objects *)

Lemma prop_insert_eq (o : obj) k v : prop (<[k := v]> o) k = v.
Proof. unfold prop. by rewrite lookup_insert_eq. Qed.

Lemma prop_insert_ne (o : obj) k k' v : k ≠ k' → prop (<[k := v]> o) k' = prop o k'.
Proof. intros. unfold prop. by rewrite lookup_insert_ne. Qed.

Lemma prop_absent (o : obj) k : o !! k = None → prop o k = VUndef.
Proof. intros Hk. unfold prop. by rewrite Hk. Qed.

Lemma spread_empty (o : obj) : spread o ∅ = o.
Proof. unfold spread. apply (left_id_L ∅ (∪)). Qed.

Lemma prop_spread_Some (o data : obj) k v : data !! k = Some v → prop (spread o data) k = v.
Proof.
  intros Hk. unfold prop, spread. by rewrite (lookup_union_Some_l _ _ _ _ Hk).
Qed.

Lemma patched_id now (entity data : obj) : prop (patched now entity data) "id" = prop entity "id".
Proof. unfold patched. by rewrite prop_insert_ne, prop_insert_eq. Qed.

Lemma patched_updatedAt now (entity data : obj) :
  prop (patched now entity data) "updatedAt" = VDate now.
Proof. unfold patched. by rewrite prop_insert_eq. Qed.

Lemma patched_createdAt now (entity data : obj) v :
  data !! "createdAt" = Some v → prop (patched now entity data) "createdAt" = v.
Proof.
  intros Hv. unfold patched. rewrite !prop_insert_ne by done.
  by apply prop_spread_Some.
Qed.

Lemma patched_other now (entity data : obj) k :
  k ≠ "id" → k ≠ "updatedAt" → data !! k = None →
  prop (patched now entity data) k = prop entity k.
Proof.
  intros ? ? Hk. unfold patched. rewrite !prop_insert_ne by done.
  unfold prop, spread. by rewrite lookup_union_r.
Qed.

(** The [id] and [updatedAt] of the patch never reach the result. *)
Lemma patched_ignores now (entity data : obj) :
  patched now entity data
  = patched now entity (delete "id" (delete "updatedAt" data)).
Proof.
  unfold patched, spread. apply map_eq; intros k.
  destruct (decide (k = "updatedAt")) as [->|Hu]; [by rewrite !lookup_insert_eq|].
  rewrite !(lookup_insert_ne _ "updatedAt") by done.
  destruct (decide (k = "id")) as [->|Hi]; [by rewrite !lookup_insert_eq|].
  rewrite !(lookup_insert_ne _ "id") by done.
  rewrite !lookup_union, !lookup_delete_ne by done. done.
Qed.

Lemma patched_empty_refreshed now (entity : obj) :
  refreshed now entity (patched now entity ∅).
Proof.
  split; [apply patched_updatedAt|].
  intros k Hk. destruct (decide (k = "id")) as [->|Hi]; [apply patched_id|].
  by apply patched_other.
Qed.

(** ** The store *)

(** Expose the state passing of a method so that the lookups it starts with
    can be rewritten. *)
Ltac unfold_M :=
  unfold mbind, M_bind, Storage.getGoal, Storage.getNote, get_storage.

Section StorageFacts.
Context `{Runtime}.

Lemma updateConversation_existing w id data conversation :
  Map_get id (conversations (storage w)) = Some conversation →
  Storage.updateConversation (VStr id) data w
  = (Some (patched (Date_now (clock_reads w)) conversation data),
     tick_with
       (with_conversations
          (Map_set id (patched (Date_now (clock_reads w)) conversation data)
             (conversations (storage w)))
          (storage w)) w).
Proof.
  intros Hget. unfold Storage.updateConversation. unfold_M.
  by rewrite Hget.
Qed.

Lemma updateGoal_existing w id data goal :
  Map_get id (goals (storage w)) = Some goal →
  Storage.updateGoal id data w
  = (Some (patched (Date_now (clock_reads w)) goal data),
     tick_with
       (with_goals
          (Map_set id (patched (Date_now (clock_reads w)) goal data)
             (goals (storage w)))
          (storage w)) w).
Proof.
  intros Hget. unfold Storage.updateGoal. unfold_M.
  by rewrite Hget.
Qed.

Lemma updateNote_existing w id data note :
  Map_get id (notes (storage w)) = Some note →
  Storage.updateNote id data w
  = (Some (patched (Date_now (clock_reads w)) note data),
     tick_with
       (with_notes
          (Map_set id (patched (Date_now (clock_reads w)) note data)
             (notes (storage w)))
          (storage w)) w).
Proof.
  intros Hget. unfold Storage.updateNote. unfold_M.
  by rewrite Hget.
Qed.

Lemma updateConversation_missing w id data :
  Map_get_value id (conversations (storage w)) = None →
  Storage.updateConversation id data w = (None, w).
Proof.
  intros Hget. unfold Storage.updateConversation. unfold_M.
  destruct id; try done. simpl in Hget. by rewrite Hget.
Qed.

Lemma updateGoal_missing w id data :
  Map_get id (goals (storage w)) = None → Storage.updateGoal id data w = (None, w).
Proof.
  intros Hget. unfold Storage.updateGoal. unfold_M.
  by rewrite Hget.
Qed.

Lemma updateNote_missing w id data :
  Map_get id (notes (storage w)) = None → Storage.updateNote id data w = (None, w).
Proof.
  intros Hget. unfold Storage.updateNote. unfold_M.
  by rewrite Hget.
Qed.

End StorageFacts.

Section UpdateFacts.
Context `{Runtime}.

Lemma update_of_existing e w id data old :
  Map_get id (store_of e (storage w)) = Some old →
  (update_of e id data w).1 = Some (patched (Date_now (clock_reads w)) old data)
  ∧ Map_get id (store_of e (storage (update_of e id data w).2))
    = Some (patched (Date_now (clock_reads w)) old data).
Proof.
  intros Hget. destruct e; simpl in *.
  - rewrite (updateConversation_existing _ _ _ _ Hget). simpl.
    split; [done | apply Map_get_set_eq].
  - rewrite (updateGoal_existing _ _ _ _ Hget). simpl.
    split; [done | apply Map_get_set_eq].
  - rewrite (updateNote_existing _ _ _ _ Hget). simpl.
    split; [done | apply Map_get_set_eq].
Qed.

Lemma update_of_ignores e w id data :
  update_of e id data w = update_of e id (delete "id" (delete "updatedAt" data)) w.
Proof.
  destruct (Map_get id (store_of e (storage w))) as [old|] eqn:Hget;
    destruct e; simpl in *.
  - by rewrite !(updateConversation_existing _ _ _ _ Hget), <- patched_ignores.
  - by rewrite !(updateGoal_existing _ _ _ _ Hget), <- patched_ignores.
  - by rewrite !(updateNote_existing _ _ _ _ Hget), <- patched_ignores.
  - by rewrite !updateConversation_missing.
  - by rewrite !updateGoal_missing.
  - by rewrite !updateNote_missing.
Qed.

(** C9.  For a conversation, a goal or a note that is stored under [id],
    [update(id, {})] returns and stores an entity whose [updatedAt] is the
    current time and whose every other field reads as it did before. *)
Theorem update_empty_patch_refreshes (e : updatable) (w : World) (id : string) (old : obj) :
  Map_get id (store_of e (storage w)) = Some old →
  ∃ updated,
    (update_of e id ∅ w).1 = Some updated
    ∧ Map_get id (store_of e (storage (update_of e id ∅ w).2)) = Some updated
    ∧ refreshed (Date_now (clock_reads w)) old updated.
Proof.
  intros Hget. exists (patched (Date_now (clock_reads w)) old ∅).
  destruct (update_of_existing e w id ∅ old Hget) as [Hret Hstored].
  split_and!; [done | done | apply patched_empty_refreshed].
Qed.

(** C10.  For a conversation, a goal or a note that is stored under [id] and
    any patch: the updated entity keeps the stored [id], its [updatedAt] is
    the current time whatever the patch says, the whole operation is the
    same as with the patch stripped of [id] and [updatedAt], and a
    [createdAt] of the patch replaces the stored one. *)
Theorem update_ignores_id_updatedAt_takes_createdAt
    (e : updatable) (w : World) (id : string) (old data : obj) :
  Map_get id (store_of e (storage w)) = Some old →
  ∃ updated,
    (update_of e id data w).1 = Some updated
    ∧ Map_get id (store_of e (storage (update_of e id data w).2)) = Some updated
    ∧ prop updated "id" = prop old "id"
    ∧ prop updated "updatedAt" = VDate (Date_now (clock_reads w))
    ∧ update_of e id data w
      = update_of e id (delete "id" (delete "updatedAt" data)) w
    ∧ ∀ v, data !! "createdAt" = Some v → prop updated "createdAt" = v.
Proof.
  intros Hget. exists (patched (Date_now (clock_reads w)) old data).
  destruct (update_of_existing e w id data old Hget) as [Hret Hstored].
  split_and!; try done.
  - apply patched_id.
  - apply patched_updatedAt.
  - apply update_of_ignores.
  - intros v Hv. by apply patched_createdAt.
Qed.

End UpdateFacts.


(** ** Running the create methods *)

Section CreateFacts.
Context `{Runtime}.

Lemma createConversation_run w insertConversation :
  Storage.createConversation insertConversation w
  = (conversation_of w insertConversation,
     draw_tick_with
       (with_conversations
          (Map_set (randomUUID (uuids_drawn w)) (conversation_of w insertConversation)
             (conversations (storage w)))
          (storage w)) w).
Proof. done. Qed.

Lemma createMessage_run w insertMessage :
  Storage.createMessage insertMessage w
  = (message_of w insertMessage,
     draw_tick_with
       (with_messages
          (Map_set (randomUUID (uuids_drawn w)) (message_of w insertMessage)
             (messages (storage w)))
          (storage w)) w).
Proof. done. Qed.

Lemma createActivity_run w insertActivity :
  Storage.createActivity insertActivity w
  = (activity_of w insertActivity,
     draw_tick_with
       (with_activities
          (Map_set (randomUUID (uuids_drawn w)) (activity_of w insertActivity)
             (activities (storage w)))
          (storage w)) w).
Proof. done. Qed.

Lemma getConversation_run id w :
  Storage.getConversation id w = (Map_get_value id (conversations (storage w)), w).
Proof. done. Qed.

Lemma conversation_of_id w insertConversation :
  prop (conversation_of w insertConversation) "id" = VStr (randomUUID (uuids_drawn w)).
Proof.
  unfold conversation_of. rewrite 2!prop_insert_ne by done.
  apply prop_insert_eq.
Qed.


End CreateFacts.

Section MessageFacts.
Context `{Runtime}.

Lemma compare_createdAt_total a b :
  ¬ before Storage.compare_createdAt_asc a b → before Storage.compare_createdAt_asc b a.
Proof. unfold before, Storage.compare_createdAt_asc. lia. Qed.

Lemma Sorted_before_createdAt l :
  Sorted (before Storage.compare_createdAt_asc) l → Sorted createdAt_le l.
Proof.
  induction 1 as [|a l Hl IH Ha]; constructor; [done|].
  destruct Ha as [|b l Hab]; constructor.
  unfold before, Storage.compare_createdAt_asc in Hab. unfold createdAt_le. lia.
Qed.

Lemma strict_equals_string v s : strict_equals v (VStr s) = true ↔ v = VStr s.
Proof.
  destruct v; simpl; try (split; [done | congruence]).
  rewrite String.eqb_eq. split; congruence.
Qed.

Lemma getMessages_run conversationId w :
  Storage.getMessages conversationId w
  = (Array_sort Storage.compare_createdAt_asc
       (filter (λ m, strict_equals (Message.conversationId m) conversationId = true)
          (Map_values (messages (storage w)))), w).
Proof. done. Qed.

Lemma insert_all_appends inserts w :
  ids_unused (uuids_drawn w) (length inserts) (messages (storage w)) →
  messages (storage (Storage.insert_all inserts w).2)
  = (messages (storage w)
     ++ ((λ m, (Message.id m, m))
           <$> stamped (uuids_drawn w) (clock_reads w) inserts))%list.
Proof.
  revert w. induction inserts as [|insertMessage rest IH]; intros w Hunused; simpl.
  - by rewrite app_nil_r.
  - unfold ids_unused in Hunused. simpl in Hunused.
    assert (Hfresh : Map_get (randomUUID (uuids_drawn w)) (messages (storage w)) = None).
    { apply Map_get_None_keys. apply NoDup_app in Hunused as (_ & Hdisjoint & _).
      intros Hin. apply (Hdisjoint _ Hin). by left. }
    unfold mbind, M_bind. rewrite createMessage_run.
    rewrite IH; simpl; rewrite (Map_set_fresh _ _ _ Hfresh).
    + by rewrite <- app_assoc.
    + unfold ids_unused. by rewrite fmap_app, <- app_assoc.
Qed.

(** C6.  Starting from any store and after any sequence of insertions,
    listing the messages of a conversation yields them in non-decreasing
    [createdAt] order, and what is listed is exactly the stored messages
    whose [conversationId] is that id, each as often as it is stored.  When
    the ids drawn for the insertions are new, the stored messages are the
    earlier ones and every inserted one, so the listing is exactly those of
    them that belong to the conversation. *)
Theorem getMessages_sorted_exact (w : World) (inserts : list InsertMessage) (cid : string) :
  let w' := (Storage.insert_all inserts w).2 in
  let listed := (Storage.getMessages (VStr cid) w').1 in
  let of_conversation :=
    filter (λ m, strict_equals (Message.conversationId m) (VStr cid) = true) in
  Sorted createdAt_le listed
  ∧ listed ≡ₚ of_conversation (Map_values (messages (storage w')))
  ∧ (∀ m, m ∈ listed
          ↔ m ∈ Map_values (messages (storage w')) ∧ Message.conversationId m = VStr cid)
  ∧ (ids_unused (uuids_drawn w) (length inserts) (messages (storage w)) →
     listed ≡ₚ of_conversation
                 (Map_values (messages (storage w))
                  ++ stamped (uuids_drawn w) (clock_reads w) inserts)%list).
Proof.
  intros w' listed of_conversation. subst listed. rewrite getMessages_run. simpl.
  split_and!.
  - apply Sorted_before_createdAt, Array_sort_Sorted, compare_createdAt_total.
  - apply Array_sort_Permutation.
  - intros m. rewrite Array_sort_Permutation, list_elem_of_filter.
    rewrite strict_equals_string. tauto.
  - intros Hunused. rewrite Array_sort_Permutation. subst w'.
    rewrite (insert_all_appends _ _ Hunused), Map_values_app.
    by rewrite Map_values_keyed.
Qed.

End MessageFacts.

(** ** The chat handler *)

Section ChatFacts.
Context `{Runtime}.

Lemma truthy_string text : text ≠ "" → truthy (VStr text) = true.
Proof. intros Hne. simpl. by apply String.eqb_neq in Hne as ->. Qed.

(** Past the guard on the message, the handler is its two parts in sequence. *)
Lemma post_chat_valid body text w :
  prop body "message" = VStr text → text ≠ "" →
  Routes.post_chat body w
  = (let '(convId, w1) :=
       Routes.resolve_conversation text (prop body "conversationId") w in
     match convId with
     | None => ({| status := 404; json := JsonError "Conversation not found" |}, w1)
     | Some convId => Routes.chat_exchange text convId w1
     end).
Proof.
  intros Hmsg Hne. unfold Routes.post_chat. rewrite Hmsg.
  rewrite (truthy_string _ Hne). simpl. unfold mbind, M_bind.
  destruct (Routes.resolve_conversation _ _ w) as [[convId|] w1]; done.
Qed.

Lemma resolve_conversation_new text conversationId w :
  truthy conversationId = false →
  Routes.resolve_conversation text conversationId w
  = (Some (VStr (randomUUID (uuids_drawn w))),
     (Storage.createConversation {["title" := VStr (title_of text)]} w).2).
Proof.
  intros Hfalsy. unfold Routes.resolve_conversation. rewrite Hfalsy. simpl.
  unfold mbind, M_bind. rewrite createConversation_run. simpl.
  by rewrite conversation_of_id.
Qed.

Lemma resolve_conversation_given text conversationId w :
  truthy conversationId = true →
  Routes.resolve_conversation text conversationId w
  = (match Map_get_value conversationId (conversations (storage w)) with
     | Some _ => Some conversationId
     | None => None
     end, w).
Proof.
  intros Htruthy. unfold Routes.resolve_conversation. rewrite Htruthy. simpl.
  unfold mbind, M_bind. rewrite getConversation_run.
  by destruct (Map_get_value _ _).
Qed.

(** C1, as the handler has it.  A chat request with a non-empty string
    message and a truthy [conversationId] that is the key of no stored
    conversation is answered 404 "Conversation not found", and neither the
    store nor the id and clock sequences have moved. *)
Theorem chat_unknown_conversation_not_found (w : World) (body : obj) (text : string) :
  prop body "message" = VStr text → text ≠ "" →
  truthy (prop body "conversationId") = true →
  Map_get_value (prop body "conversationId") (conversations (storage w)) = None →
  Routes.post_chat body w
  = ({| status := 404; json := JsonError "Conversation not found" |}, w).
Proof.
  intros Hmsg Hne Htruthy Hmissing.
  rewrite (post_chat_valid _ _ _ Hmsg Hne).
  by rewrite (resolve_conversation_given _ _ _ Htruthy), Hmissing.
Qed.


Lemma chat_exchange_thrown text convId w e :
  Gemini.chatWithAI text (history_sent text convId w) = Thrown e →
  Routes.chat_exchange text convId w
  = ({| status := 500; json := JsonError "Failed to process chat message" |},
     (Storage.createMessage
        {| im_conversationId := convId; im_role := "user"; im_content := text |} w).2).
Proof.
  unfold history_sent, Routes.chat_exchange, mbind, M_bind.
  rewrite createMessage_run, getMessages_run. simpl. intros ->. done.
Qed.

Lemma chat_exchange_returned text convId w aiResponse :
  Gemini.chatWithAI text (history_sent text convId w) = Returned aiResponse →
  Routes.chat_exchange text convId w
  = (let w1 := (Storage.createMessage
                  {| im_conversationId := convId; im_role := "user";
                     im_content := text |} w).2 in
     let '(aiMessage, w2) :=
       Storage.createMessage
         {| im_conversationId := convId; im_role := "assistant";
            im_content := aiResponse |} w1 in
     let '(now, w3) := Storage.new_Date w2 in
     let '(_, w4) := Storage.updateConversation convId {["updatedAt" := VDate now]} w3 in
     let '(_, w5) :=
       Storage.createActivity
         {| ia_type := "chat";
            ia_description :=
              "Had a conversation about: " +:+ substring 0 60 text
              +:+ (if (60 <? String.length text)%nat then "..." else "") |} w4 in
     ({| status := 200; json := JsonChatResponse aiMessage convId |}, w5)).
Proof.
  unfold history_sent, Routes.chat_exchange, mbind, M_bind.
  rewrite createMessage_run, getMessages_run. simpl. intros ->. done.
Qed.

(** C4.  A chat request with a non-empty string message whose conversation
    was resolved, to an existing conversation or to one just created: when
    the gateway call throws, the answer is the error 500 and the store is the
    one left by the resolution with the user message set in it and nothing
    more.  So the user message is there, and so is a conversation the
    resolution created (resolving to an existing conversation changed
    nothing); no assistant message, no change of the conversation and no
    activity were written. *)
Theorem chat_gateway_failure_keeps_writes
    (w w1 : World) (body : obj) (text e : string) (convId : value) :
  prop body "message" = VStr text → text ≠ "" →
  Routes.resolve_conversation text (prop body "conversationId") w = (Some convId, w1) →
  Gemini.chatWithAI text (history_sent text convId w1) = Thrown e →
  Routes.post_chat body w
  = ({| status := 500; json := JsonError "Failed to process chat message" |},
     draw_tick_with
       (with_messages
          (Map_set (randomUUID (uuids_drawn w1)) (user_message text convId w1)
             (messages (storage w1)))
          (storage w1)) w1)
  ∧ Map_get (randomUUID (uuids_drawn w1))
      (Map_set (randomUUID (uuids_drawn w1)) (user_message text convId w1)
         (messages (storage w1)))
    = Some (user_message text convId w1)
  ∧ if truthy (prop body "conversationId")
    then w1 = w
    else storage w1
         = with_conversations
             (Map_set (randomUUID (uuids_drawn w))
                (conversation_of w {["title" := VStr (title_of text)]})
                (conversations (storage w)))
             (storage w).
Proof.
  intros Hmsg Hne Hres Hfail. split_and!.
  - rewrite (post_chat_valid _ _ _ Hmsg Hne), Hres.
    by rewrite (chat_exchange_thrown _ _ _ _ Hfail), createMessage_run.
  - apply Map_get_set_eq.
  - destruct (truthy (prop body "conversationId")) eqn:Ht.
    + rewrite (resolve_conversation_given _ _ _ Ht) in Hres. congruence.
    + rewrite (resolve_conversation_new _ _ _ Ht) in Hres.
      by injection Hres as _ <-.
Qed.


(** C3.  A chat request with a non-empty string message and no
    [conversationId], when the gateway call returns [aiResponse] and the four
    ids drawn are not in use: the answer is 200 with the assistant message;
    the conversations are the old ones followed by one new conversation,
    which is the created one except for its [updatedAt]; the messages are the
    old ones followed by the user message with the input and then the
    assistant message with the reply, both in the new conversation; the
    activities are the old ones followed by one activity of type "chat";
    goals and notes are as before. *)
Theorem chat_new_conversation_writes
    (w : World) (body : obj) (text aiResponse : string) :
  let n := uuids_drawn w in
  let c := clock_reads w in
  let cid := randomUUID n in
  let created := conversation_of w {["title" := VStr (title_of text)]} in
  let userMessage :=
    {| Message.id := randomUUID (S n); Message.conversationId := VStr cid;
       Message.role := "user"; Message.content := text;
       Message.createdAt := Date_now (S c) |} in
  let aiMessage :=
    {| Message.id := randomUUID (S (S n)); Message.conversationId := VStr cid;
       Message.role := "assistant"; Message.content := aiResponse;
       Message.createdAt := Date_now (S (S c)) |} in
  prop body "message" = VStr text → text ≠ "" →
  body !! "conversationId" = None →
  Gemini.chatWithAI text
    (history_sent text (VStr cid)
       (Storage.createConversation {["title" := VStr (title_of text)]} w).2)
  = Returned aiResponse →
  Map_get cid (conversations (storage w)) = None →
  Map_get (randomUUID (S n)) (messages (storage w)) = None →
  Map_get (randomUUID (S (S n))) (messages (storage w)) = None →
  randomUUID (S n) ≠ randomUUID (S (S n)) →
  Map_get (randomUUID (S (S (S n)))) (activities (storage w)) = None →
  ∃ conversation activity w',
    Routes.post_chat body w
    = ({| status := 200; json := JsonChatResponse aiMessage (VStr cid) |}, w')
    ∧ conversations (storage w')
      = (conversations (storage w) ++ [(cid, conversation)])%list
    ∧ refreshed (Date_now (4 + c)) created conversation
    ∧ messages (storage w')
      = (messages (storage w)
         ++ [(randomUUID (S n), userMessage); (randomUUID (S (S n)), aiMessage)])%list
    ∧ activities (storage w')
      = (activities (storage w) ++ [(randomUUID (S (S (S n))), activity)])%list
    ∧ Activity.id activity = randomUUID (S (S (S n)))
    ∧ Activity.type activity = "chat"
    ∧ goals (storage w') = goals (storage w)
    ∧ notes (storage w') = notes (storage w).
Proof.
  intros n c cid created userMessage aiMessage
    Hmsg Hne Habsent Hai Hconv Hm1 Hm2 Hm12 Hact.
  rewrite (post_chat_valid _ _ _ Hmsg Hne).
  rewrite resolve_conversation_new by (by rewrite (prop_absent _ _ Habsent)).
  cbv iota beta. unfold cid, n in Hai.
  rewrite (chat_exchange_returned _ _ _ _ Hai).
  rewrite createConversation_run, !createMessage_run. simpl.
  rewrite (updateConversation_existing _ _ _ created) by apply Map_get_set_eq.
  simpl.
  exists (patched (Date_now (4 + c)) created
            {["updatedAt" := VDate (Date_now (3 + c))]}).
  exists {| Activity.id := randomUUID (S (S (S n)));
            Activity.type := "chat";
            Activity.description :=
              "Had a conversation about: " +:+ substring 0 60 text
              +:+ (if (60 <? String.length text)%nat then "..." else "");
            Activity.createdAt := Date_now (5 + c) |}.
  eexists. split; [reflexivity|]. simpl.
  split_and!; try done.
  - by rewrite Map_set_set, Map_set_fresh.
  - split; [apply patched_updatedAt|]. intros k Hk.
    destruct (decide (k = "id")) as [->|Hid]; [apply patched_id|].
    apply patched_other; [done | done |]. by apply lookup_singleton_ne.
  - rewrite (Map_set_fresh _ _ _ Hm1).
    rewrite Map_set_fresh; [by rewrite <- app_assoc|].
    rewrite Map_get_app_ne; [done | by intros E; apply Hm12 | done].
  - by rewrite (Map_set_fresh _ _ _ Hact).
Qed.
End ChatFacts.

(** ** The PATCH handlers *)

Section PatchFacts.
Context `{Runtime}.




(** Whatever the stored goal holds, the test of the handler is
    [body.completed === true && !existingGoal.completed]. *)
Lemma goal_activity_type body existing goal :
  ia_type (goal_activity body existing goal)
  = if is_true (prop body "completed") && negb (truthy (prop existing "completed"))
    then "goal_completed" else "goal_updated".
Proof.
  unfold goal_activity.
  by destruct (is_true (prop body "completed")
               && negb (truthy (prop existing "completed"))).
Qed.


End PatchFacts.

(** ** The summary gateway *)

Section SummaryFacts.
Context `{Runtime}.

Lemma two_strings_when_failed : two_strings Gemini.insights_when_failed.
Proof. by eexists _, _. Qed.

Lemma two_strings_when_empty : two_strings Gemini.insights_when_empty.
Proof. by eexists _, _. Qed.

(** C7, as the function has it.  [generateDailySummary] always returns and
    never throws.  When the provider call throws it returns the two strings
    of its [catch] block; when the provider's output parses to the empty
    array it returns the two strings written next to the length test: two
    fixed lists, not one. *)
Theorem generateDailySummary_masks_failures (chats goals notes : Z) :
  (∃ insights, Gemini.generateDailySummary chats goals notes = Returned insights)
  ∧ (generateContent (summary_request chats goals notes) = Rejects →
     Gemini.generateDailySummary chats goals notes
     = Returned Gemini.insights_when_failed)
  ∧ (∀ text,
       generateContent (summary_request chats goals notes) = Resolves text →
       JSON_parse (Gemini.text_or text "[]") = Some (VArr []) →
       Gemini.generateDailySummary chats goals notes
       = Returned Gemini.insights_when_empty)
  ∧ two_strings Gemini.insights_when_failed
  ∧ two_strings Gemini.insights_when_empty.
Proof.
  unfold Gemini.generateDailySummary, Gemini.generateDailySummary_try.
  fold (summary_request chats goals notes).
  split_and!.
  - destruct (generateContent _) as [|text]; [by eexists|].
    destruct (JSON_parse _) as [insights|]; [|by eexists].
    destruct (Gemini.length_gt_zero insights) as [[|]|]; by eexists.
  - by intros ->.
  - intros text -> ->. done.
  - apply two_strings_when_failed.
  - apply two_strings_when_empty.
Qed.

End SummaryFacts.

(** ** The statements on concrete requests *)

Lemma chat_unknown_conversation_not_found_witness :
  Map_get_value (VStr "nope") (conversations (storage Sample.seeded_world)) = None
  ∧ @Routes.post_chat Sample.answering
      {["message" := VStr "hi"; "conversationId" := VStr "nope"]} Sample.seeded_world
    = ({| status := 404; json := JsonError "Conversation not found" |},
       Sample.seeded_world).
Proof.
  split; [vm_compute; reflexivity|].
  apply (@chat_unknown_conversation_not_found Sample.answering Sample.seeded_world
           {["message" := VStr "hi"; "conversationId" := VStr "nope"]} "hi").
  - vm_compute; reflexivity.
  - discriminate.
  - vm_compute; reflexivity.
  - vm_compute; reflexivity.
Defined.

(** C1 as stated fails twice.  An empty [conversationId] is present and
    names no conversation, yet the handler takes it for an absent one: it
    creates a conversation and answers 200.  And with an empty message the
    answer is 400 "Message is required", not a not-found error. *)
Lemma chat_guard_counterexample :
  (let body : obj := {["message" := VStr "hi"; "conversationId" := VStr ""]} in
   body !! "conversationId" = Some (VStr "")
   ∧ Map_get_value (VStr "") (conversations (storage Sample.seeded_world)) = None
   ∧ status (@Routes.post_chat Sample.answering body Sample.seeded_world).1 = 200
   ∧ length (conversations (storage Sample.seeded_world)) = 1
   ∧ length (conversations
               (storage (@Routes.post_chat Sample.answering body Sample.seeded_world).2))
     = 2)
  ∧ (let body : obj := {["message" := VStr ""; "conversationId" := VStr "nope"]} in
     body !! "conversationId" = Some (VStr "nope")
     ∧ Map_get_value (VStr "nope") (conversations (storage Sample.seeded_world)) = None
     ∧ (@Routes.post_chat Sample.answering body Sample.seeded_world).1
       = {| status := 400; json := JsonError "Message is required" |}).
Proof. vm_compute. repeat split. Qed.



Lemma chat_new_conversation_writes_witness :
  ∃ conversation activity w',
    @Routes.post_chat Sample.answering {["message" := VStr "hi"]} Sample.fresh_world
    = ({| status := 200;
          json := JsonChatResponse
                    {| Message.id := "uuid-2"; Message.conversationId := VStr "uuid-0";
                       Message.role := "assistant"; Message.content := "Sure.";
                       Message.createdAt := 1700000000002 |}
                    (VStr "uuid-0") |}, w')
    ∧ conversations (storage w') = [("uuid-0", conversation)]
    ∧ messages (storage w')
      = [("uuid-1",
          {| Message.id := "uuid-1"; Message.conversationId := VStr "uuid-0";
             Message.role := "user"; Message.content := "hi";
             Message.createdAt := 1700000000001 |});
         ("uuid-2",
          {| Message.id := "uuid-2"; Message.conversationId := VStr "uuid-0";
             Message.role := "assistant"; Message.content := "Sure.";
             Message.createdAt := 1700000000002 |})]
    ∧ activities (storage w') = [("uuid-3", activity)]
    ∧ Activity.type activity = "chat".
Proof.
  destruct (@chat_new_conversation_writes Sample.answering Sample.fresh_world
              {["message" := VStr "hi"]} "hi" "Sure.")
    as (conversation & activity & w' & Hrun & Hconv & _ & Hmsgs & Hacts & _ & Htype & _).
  - vm_compute; reflexivity.
  - discriminate.
  - vm_compute; reflexivity.
  - vm_compute; reflexivity.
  - vm_compute; reflexivity.
  - vm_compute; reflexivity.
  - vm_compute; reflexivity.
  - vm_compute; discriminate.
  - vm_compute; reflexivity.
  - exists conversation, activity, w'. split_and!; done.
Defined.

Lemma chat_gateway_failure_keeps_writes_witness :
  (let after := @Routes.post_chat Sample.failing {["message" := VStr "hi"]}
                  Sample.fresh_world in
   status after.1 = 500
   ∧ Map_has "uuid-0" (conversations (storage after.2)) = true
   ∧ length (conversations (storage after.2)) = 1
   ∧ Message.role <$> Map_values (messages (storage after.2)) = ["user"]
   ∧ length (activities (storage after.2)) = 0)
  ∧ (let after := @Routes.post_chat Sample.failing
                    {["message" := VStr "hi"; "conversationId" := VStr "uuid-0"]}
                    Sample.seeded_world in
     status after.1 = 500
     ∧ conversations (storage after.2) = conversations (storage Sample.seeded_world)
     ∧ Message.role <$> Map_values (messages (storage after.2)) = ["user"]
     ∧ length (activities (storage after.2)) = 0).
Proof.
  split.
  - destruct (@chat_gateway_failure_keeps_writes Sample.failing Sample.fresh_world
                (@Routes.resolve_conversation Sample.failing "hi" VUndef
                   Sample.fresh_world).2
                {["message" := VStr "hi"]} "hi" "Failed to get AI response"
                (VStr "uuid-0")) as (Hrun & _ & _).
    + vm_compute; reflexivity.
    + discriminate.
    + reflexivity.
    + vm_compute; reflexivity.
    + cbv zeta. rewrite Hrun. repeat split; vm_compute; reflexivity.
  - destruct (@chat_gateway_failure_keeps_writes Sample.failing Sample.seeded_world
                Sample.seeded_world
                {["message" := VStr "hi"; "conversationId" := VStr "uuid-0"]} "hi"
                "Failed to get AI response" (VStr "uuid-0")) as (Hrun & _ & _).
    + vm_compute; reflexivity.
    + discriminate.
    + reflexivity.
    + vm_compute; reflexivity.
    + cbv zeta. rewrite Hrun.
      split_and!; [vm_compute; reflexivity | reflexivity
                   | vm_compute; reflexivity | vm_compute; reflexivity].
Defined.


Lemma generateDailySummary_masks_failures_witness :
  @Gemini.generateDailySummary Sample.failing 2 1 3
  = Returned Gemini.insights_when_failed
  ∧ @Gemini.generateDailySummary Sample.empty_insights 2 1 3
    = Returned Gemini.insights_when_empty.
Proof.
  split.
  - apply (@generateDailySummary_masks_failures Sample.failing 2 1 3).
    reflexivity.
  - apply (proj1 (proj2 (proj2
      (@generateDailySummary_masks_failures Sample.empty_insights 2 1 3)))
      (Some "[]")); reflexivity.
Defined.

(** C7 as stated fails: no single list is returned both when the provider
    call throws and when its output parses to the empty array. *)
Lemma summary_fallback_counterexample :
  ¬ ∃ fallback : value,
      @Gemini.generateDailySummary Sample.failing 2 1 3 = Returned fallback
      ∧ @Gemini.generateDailySummary Sample.empty_insights 2 1 3 = Returned fallback.
Proof.
  intros (fallback & Hfailed & Hempty).
  vm_compute in Hfailed, Hempty. congruence.
Qed.


Lemma update_empty_patch_refreshes_witness :
  Forall
    (λ e : updatable,
       ∃ updated,
         (@update_of Sample.answering e (Sample.seeded e).1 ∅ Sample.seeded_world).1
         = Some updated
         ∧ Map_get (Sample.seeded e).1
             (store_of e
                (storage
                   (@update_of Sample.answering e (Sample.seeded e).1 ∅
                      Sample.seeded_world).2))
           = Some updated
         ∧ refreshed 1700000000003 (Sample.seeded e).2 updated)
    [Conversation; Goal; Note].
Proof.
  repeat constructor.
  - apply (@update_empty_patch_refreshes Sample.answering Conversation
             Sample.seeded_world "uuid-0" Sample.seeded_conversation).
    reflexivity.
  - apply (@update_empty_patch_refreshes Sample.answering Goal
             Sample.seeded_world "uuid-1" Sample.seeded_goal).
    reflexivity.
  - apply (@update_empty_patch_refreshes Sample.answering Note
             Sample.seeded_world "uuid-2" Sample.seeded_note).
    reflexivity.
Defined.

Lemma update_ignores_id_updatedAt_takes_createdAt_witness :
  let data : obj :=
    {["id" := VStr "forged"; "updatedAt" := VDate 7; "createdAt" := VDate 9]} in
  ∃ updated,
    (@update_of Sample.answering Goal "uuid-1" data Sample.seeded_world).1 = Some updated
    ∧ prop updated "id" = VStr "uuid-1"
    ∧ prop updated "updatedAt" = VDate 1700000000003
    ∧ prop updated "createdAt" = VDate 9.
Proof.
  intros data.
  destruct (@update_ignores_id_updatedAt_takes_createdAt Sample.answering Goal
              Sample.seeded_world "uuid-1" Sample.seeded_goal data)
    as (updated & Hret & _ & Hid & Hupdated & _ & Hcreated).
  - reflexivity.
  - exists updated. split_and!; [done | | done |].
    + rewrite Hid. vm_compute; reflexivity.
    + apply Hcreated. vm_compute; reflexivity.
Defined.

Lemma getMessages_sorted_exact_witness :
  ids_unused (H := Sample.answering) 0 3 (messages (storage Sample.fresh_world))
  ∧ (Storage.getMessages (VStr "a")
       (@Storage.insert_all Sample.answering Sample.interleaved Sample.fresh_world).2).1
    ≡ₚ [ {| Message.id := "uuid-0"; Message.conversationId := VStr "a";
            Message.role := "user"; Message.content := "one";
            Message.createdAt := 1700000000000 |};
         {| Message.id := "uuid-2"; Message.conversationId := VStr "a";
            Message.role := "assistant"; Message.content := "three";
            Message.createdAt := 1700000000002 |} ].
Proof.
  assert (Hunused : ids_unused (H := Sample.answering) 0 3
                      (messages (storage Sample.fresh_world))).
  { unfold ids_unused. apply (bool_decide_unpack _). vm_compute. exact I. }
  split; [exact Hunused|].
  exact (proj2 (proj2 (proj2
    (@getMessages_sorted_exact Sample.answering Sample.fresh_world
       Sample.interleaved "a"))) Hunused).
Defined.

(** The scenario of the specification: a message of seventy characters gets
    its first fifty characters and an ellipsis as title. *)
Example title_of_seventy :
  title_of Sample.seventy = "01234567890123456789012345678901234567890123456789...".
Proof. vm_compute. reflexivity. Qed.

(** * Further properties of the store, the gateway and the handlers *)

#[local] Set Warnings "-clear-no-such-hyp".

(** ** Ordered maps, continued *)

Section OrderedMapMore.
Context {V : Type}.
Implicit Types (m : list (string * V)) (k : string) (v : V).

Lemma Map_set_keys_present m k v v0 :
  Map_get k m = Some v0 → (Map_set k v m).*1 = m.*1.
Proof.
  induction m as [|[k' v'] m IH]; simpl; [done|].
  destruct (String.eqb k k') eqn:E.
  - apply String.eqb_eq in E as ->. done.
  - intros Hget. simpl. f_equal. by apply IH.
Qed.

Lemma Map_set_keys_absent m k v :
  Map_get k m = None → (Map_set k v m).*1 = (m.*1 ++ [k])%list.
Proof. intros Hget. by rewrite (Map_set_fresh _ _ _ Hget), fmap_app. Qed.

Lemma Map_set_NoDup m k v : NoDup m.*1 → NoDup (Map_set k v m).*1.
Proof.
  intros Hm. destruct (Map_get k m) as [v0|] eqn:Hget.
  - by rewrite (Map_set_keys_present _ _ _ _ Hget).
  - rewrite (Map_set_keys_absent _ _ _ Hget).
    apply NoDup_app. split_and!; [done | | apply NoDup_singleton].
    intros k' Hin ->%list_elem_of_singleton.
    by apply Map_get_None_keys in Hget.
Qed.

Lemma Map_set_Forall (P : string * V → Prop) m k v :
  Forall P m → P (k, v) → Forall P (Map_set k v m).
Proof.
  intros Hm Hkv. induction Hm as [|[k' v'] m Hhead Hm IH]; simpl.
  - by constructor.
  - destruct (String.eqb k k'); by constructor.
Qed.

Lemma Map_remove_absent m k : Map_get k m = None → Map_remove k m = m.
Proof.
  induction m as [|[k' v'] m IH]; simpl; [done|].
  destruct (String.eqb k k'); [done|]. intros Hget. by rewrite IH.
Qed.

Lemma Map_remove_keys_subset m k k' : k' ∈ (Map_remove k m).*1 → k' ∈ m.*1.
Proof.
  induction m as [|[k0 v0] m IH]; simpl; [done|].
  destruct (String.eqb k k0); simpl.
  - by right.
  - rewrite !elem_of_cons. intros [->|Hin]; [by left | right; by apply IH].
Qed.

Lemma Map_remove_NoDup m k : NoDup m.*1 → NoDup (Map_remove k m).*1.
Proof.
  induction m as [|[k0 v0] m IH]; simpl; [done|].
  rewrite NoDup_cons. intros [Hnotin Hm].
  destruct (String.eqb k k0); simpl; [done|].
  apply NoDup_cons. split; [|by apply IH].
  intros Hin. by apply Hnotin, (Map_remove_keys_subset _ k).
Qed.

Lemma Map_remove_Forall (P : string * V → Prop) m k :
  Forall P m → Forall P (Map_remove k m).
Proof.
  induction 1 as [|[k' v'] m Hhead Hm IH]; simpl; [done|].
  destruct (String.eqb k k'); [done | by constructor].
Qed.

Lemma Map_get_remove_eq m k : NoDup m.*1 → Map_get k (Map_remove k m) = None.
Proof.
  induction m as [|[k0 v0] m IH]; simpl; [done|].
  rewrite NoDup_cons. intros [Hnotin Hm].
  destruct (String.eqb k k0) eqn:E; simpl.
  - apply String.eqb_eq in E as ->. by apply Map_get_None_keys.
  - rewrite E. by apply IH.
Qed.

Lemma Map_get_remove_ne m k k' : k ≠ k' → Map_get k' (Map_remove k m) = Map_get k' m.
Proof.
  intros Hne. induction m as [|[k0 v0] m IH]; simpl; [done|].
  destruct (String.eqb k k0) eqn:E; simpl.
  - apply String.eqb_eq in E as <-.
    destruct (String.eqb k' k) eqn:E'; [|done].
    apply String.eqb_eq in E'. congruence.
  - by rewrite IH.
Qed.

Lemma filter_other_keys (l : list string) k : k ∉ l → filter (λ k', k' ≠ k) l = l.
Proof.
  induction l as [|k0 l IH]; [done|].
  rewrite not_elem_of_cons. intros [Hne Hnotin].
  rewrite filter_cons_True by done. by rewrite IH.
Qed.

Lemma Map_remove_keys m k :
  NoDup m.*1 → (Map_remove k m).*1 = filter (λ k', k' ≠ k) m.*1.
Proof.
  induction m as [|[k0 v0] m IH]; simpl; [done|].
  rewrite NoDup_cons. intros [Hnotin Hm].
  destruct (String.eqb k k0) eqn:E.
  - apply String.eqb_eq in E as <-.
    rewrite filter_cons_False by (by intros ?). by rewrite filter_other_keys.
  - apply String.eqb_neq in E. rewrite filter_cons_True by done.
    simpl. f_equal. by apply IH.
Qed.

Lemma Map_has_true m k : Map_has k m = true ↔ is_Some (Map_get k m).
Proof.
  unfold Map_has. destruct (Map_get k m); split; done.
Qed.

Lemma Map_get_Some_values m k v : Map_get k m = Some v → v ∈ Map_values m.
Proof.
  induction m as [|[k' v'] m IH]; simpl; [done|].
  destruct (String.eqb k k').
  - intros [= ->]. by left.
  - intros Hget. right. by apply IH.
Qed.

Lemma keyed_set (id_of : V → value) m k v :
  keyed id_of m → id_of v = VStr k → keyed id_of (Map_set k v m).
Proof.
  intros [Hkeys Hids] Hid. split; [by apply Map_set_NoDup|].
  by apply Map_set_Forall.
Qed.

Lemma keyed_remove (id_of : V → value) m k :
  keyed id_of m → keyed id_of (Map_remove k m).
Proof.
  intros [Hkeys Hids]. split; [by apply Map_remove_NoDup | by apply Map_remove_Forall].
Qed.

Lemma keyed_get (id_of : V → value) m k v :
  keyed id_of m → Map_get k m = Some v → id_of v = VStr k.
Proof.
  intros [_ Hids]. induction Hids as [|[k' v'] m Hhead Hm IH]; simpl; [done|].
  destruct (String.eqb k k') eqn:E.
  - apply String.eqb_eq in E as ->. by intros [= <-].
  - apply IH.
Qed.

End OrderedMapMore.

(** ** Sorting, continued *)

Section SortMore.
Context {A : Type} (cmp : A → A → Z).
Context (P : A → Prop) `{!∀ x, Decision (P x)}.

Hypothesis cmp_total : ∀ a b, ¬ before cmp a b → before cmp b a.
Hypothesis cmp_trans : ∀ a b c, before cmp a b → before cmp b c → before cmp a c.

(** Sorting a list that is in order returns it as it is. *)
Lemma Array_sort_in_order l : Sorted (before cmp) l → Array_sort cmp l = l.
Proof.
  induction 1 as [|a l Hl IH Ha]; [done|].
  change (Array_sort cmp (a :: l)) with (sort_insert cmp a (Array_sort cmp l)).
  rewrite IH. destruct Ha as [|b l Hab]; simpl; [done|].
  unfold before in Hab. by apply Z.leb_le in Hab as ->.
Qed.

Lemma StronglySorted_of_Sorted l : Sorted (before cmp) l → StronglySorted (before cmp) l.
Proof using cmp_trans.
  induction 1 as [|a l Hl IH Ha]; constructor; [done|].
  clear Hl. revert a Ha. induction IH as [|b l Hl IHl Hb]; intros a Ha; [done|].
  apply HdRel_inv in Ha. constructor; [done|].
  apply IHl. destruct Hl as [|c l ? ?]; constructor.
  apply (cmp_trans a b c); [done|]. by apply Forall_inv in Hb.
Qed.

Lemma StronglySorted_filter l :
  StronglySorted (before cmp) l → StronglySorted (before cmp) (filter P l).
Proof.
  induction 1 as [|a l Hl IH Ha]; [constructor|].
  rewrite filter_cons. destruct (decide (P a)); [|done].
  constructor; [done|].
  apply Forall_forall. intros b [_ Hb]%list_elem_of_filter.
  by apply (proj1 (Forall_forall _ _) Ha).
Qed.

Lemma foldr_sort_insert_Sorted l0 l :
  Sorted (before cmp) l0 → Sorted (before cmp) (foldr (sort_insert cmp) l0 l).
Proof using cmp_total.
  intros Hl0. induction l as [|a l IH]; simpl; [done|].
  by apply sort_insert_Sorted.
Qed.

(** Inserting and then filtering is filtering and then inserting, for an
    element the filter keeps and a sorted list. *)
Lemma filter_sort_insert a l :
  StronglySorted (before cmp) l → P a →
  filter P (sort_insert cmp a l) = sort_insert cmp a (filter P l).
Proof using cmp_trans.
  intros Hl Ha. induction Hl as [|b l Hl IH Hb]; simpl.
  - by rewrite filter_cons_True.
  - destruct (cmp a b <=? 0)%Z eqn:E.
    + rewrite filter_cons_True by done.
      rewrite (filter_cons _ b). destruct (decide (P b)) as [HPb|HPb].
      * simpl. by rewrite E.
      * destruct (filter P l) as [|c l'] eqn:Hfilter; [done|].
        simpl. assert (Hc : c ∈ l).
        { assert (c ∈ filter P l) as [_ ?]%list_elem_of_filter; [|done].
          rewrite Hfilter. by left. }
        apply Z.leb_le in E.
        pose proof (cmp_trans a b c E (proj1 (Forall_forall _ _) Hb c Hc)) as Hac.
        unfold before in Hac. by apply Z.leb_le in Hac as ->.
    + rewrite !(filter_cons _ b). destruct (decide (P b)); simpl.
      * by rewrite E, IH.
      * by rewrite IH.
Qed.

(** An element the filter drops leaves no trace in the sorted result. *)
Lemma filter_sort_without x l :
  ¬ P x → Forall P l →
  filter P (Array_sort cmp (l ++ [x])) = Array_sort cmp l.
Proof using cmp_total cmp_trans.
  intros Hx Hl. unfold Array_sort. rewrite foldr_app. simpl.
  induction Hl as [|a l Ha Hl IH]; simpl.
  - by rewrite filter_cons_False.
  - rewrite filter_sort_insert, IH; [done | | done].
    apply StronglySorted_of_Sorted, foldr_sort_insert_Sorted.
    repeat constructor.
Qed.

End SortMore.

(** ** The store, continued *)

Section StorageMore.
Context `{Runtime}.

Lemma createGoal_run w insertGoal :
  Storage.createGoal insertGoal w
  = (goal_of w insertGoal,
     draw_tick_with
       (with_goals
          (Map_set (randomUUID (uuids_drawn w)) (goal_of w insertGoal)
             (goals (storage w)))
          (storage w)) w).
Proof. done. Qed.

Lemma createNote_run w insertNote :
  Storage.createNote insertNote w
  = (note_of w insertNote,
     draw_tick_with
       (with_notes
          (Map_set (randomUUID (uuids_drawn w)) (note_of w insertNote)
             (notes (storage w)))
          (storage w)) w).
Proof. done. Qed.

Lemma goal_of_id w insertGoal :
  prop (goal_of w insertGoal) "id" = VStr (randomUUID (uuids_drawn w)).
Proof.
  unfold goal_of. rewrite 4!prop_insert_ne by done. apply prop_insert_eq.
Qed.

Lemma note_of_id w insertNote :
  prop (note_of w insertNote) "id" = VStr (randomUUID (uuids_drawn w)).
Proof.
  unfold note_of. rewrite 3!prop_insert_ne by done. apply prop_insert_eq.
Qed.

Lemma delete_of_run e id w :
  delete_of e id w
  = (Map_has id (store_of e (storage w)),
     {| storage := with_store_of e (Map_remove id (store_of e (storage w))) (storage w);
        uuids_drawn := uuids_drawn w; clock_reads := clock_reads w |}).
Proof. by destruct e. Qed.

Lemma store_of_with_store_of e m s : store_of e (with_store_of e m s) = m.
Proof. by destruct e. Qed.

Lemma with_store_of_same e s : with_store_of e (store_of e s) s = s.
Proof. by destruct e, s. Qed.

(** X1.  What a create method returns is what the matching get method then
    finds under the id of the returned entity, for conversations, messages,
    goals and notes alike, whatever the store held before. *)
Theorem create_then_get (w : World) :
  (∀ insertConversation,
     let created := Storage.createConversation insertConversation w in
     Storage.getConversation (prop created.1 "id") created.2
     = (Some created.1, created.2))
  ∧ (∀ insertMessage,
       let created := Storage.createMessage insertMessage w in
       Storage.getMessage (Message.id created.1) created.2
       = (Some created.1, created.2))
  ∧ (∀ insertGoal,
       let created := Storage.createGoal insertGoal w in
       ∃ id, prop created.1 "id" = VStr id
             ∧ Storage.getGoal id created.2 = (Some created.1, created.2))
  ∧ (∀ insertNote,
       let created := Storage.createNote insertNote w in
       ∃ id, prop created.1 "id" = VStr id
             ∧ Storage.getNote id created.2 = (Some created.1, created.2)).
Proof.
  split_and!.
  - intros insertConversation. rewrite createConversation_run. simpl.
    rewrite conversation_of_id, getConversation_run. simpl.
    by rewrite Map_get_set_eq.
  - intros insertMessage. rewrite createMessage_run. simpl.
    unfold Storage.getMessage, mbind, M_bind, get_storage. simpl.
    by rewrite Map_get_set_eq.
  - intros insertGoal. rewrite createGoal_run. simpl.
    exists (randomUUID (uuids_drawn w)). split; [apply goal_of_id|].
    unfold Storage.getGoal, mbind, M_bind, get_storage. simpl.
    by rewrite Map_get_set_eq.
  - intros insertNote. rewrite createNote_run. simpl.
    exists (randomUUID (uuids_drawn w)). split; [apply note_of_id|].
    unfold Storage.getNote, mbind, M_bind, get_storage. simpl.
    by rewrite Map_get_set_eq.
Qed.

(** Each writing method keeps the store well formed. *)
Lemma perform_keeps_well_formed c : keeps well_formed (perform c).
Proof.
  intros w (Hc & Hm & Hg & Hn & Ha).
  destruct c; unfold perform, mbind, M_bind.
  - rewrite createConversation_run. simpl.
    split_and!; try done. apply keyed_set; [done|]. apply conversation_of_id.
  - destruct (Map_get_value id (conversations (storage w))) as [old|] eqn:Hget.
    + destruct id as [| | | |k| | |]; try done. simpl in Hget.
      rewrite (updateConversation_existing _ _ _ _ Hget). simpl.
      split_and!; try done. apply keyed_set; [done|].
      unfold id_of_object. rewrite patched_id. by apply (keyed_get _ _ _ _ Hc).
    + by rewrite (updateConversation_missing _ _ _ Hget).
  - simpl. split_and!; try done. by apply keyed_remove.
  - rewrite createMessage_run. simpl.
    split_and!; try done. by apply keyed_set.
  - simpl. split_and!; try done. by apply keyed_remove.
  - rewrite createGoal_run. simpl.
    split_and!; try done. apply keyed_set; [done|]. apply goal_of_id.
  - destruct (Map_get id (goals (storage w))) as [old|] eqn:Hget.
    + rewrite (updateGoal_existing _ _ _ _ Hget). simpl.
      split_and!; try done. apply keyed_set; [done|].
      unfold id_of_object. rewrite patched_id. by apply (keyed_get _ _ _ _ Hg).
    + by rewrite (updateGoal_missing _ _ _ Hget).
  - simpl. split_and!; try done. by apply keyed_remove.
  - rewrite createNote_run. simpl.
    split_and!; try done. apply keyed_set; [done|]. apply note_of_id.
  - destruct (Map_get id (notes (storage w))) as [old|] eqn:Hget.
    + rewrite (updateNote_existing _ _ _ _ Hget). simpl.
      split_and!; try done. apply keyed_set; [done|].
      unfold id_of_object. rewrite patched_id. by apply (keyed_get _ _ _ _ Hn).
    + by rewrite (updateNote_missing _ _ _ Hget).
  - simpl. split_and!; try done. by apply keyed_remove.
  - rewrite createActivity_run. simpl.
    split_and!; try done. by apply keyed_set.
Qed.

(** X2.  Whatever sequence of writing methods is called on a well-formed
    store, with whatever arguments and whatever ids the runtime draws, the
    store stays well formed: no map holds a key twice and every entity is
    stored under the id it carries. *)
Theorem calls_keep_well_formed (calls : list call) (w : World) :
  well_formed (storage w) → well_formed (storage (perform_all calls w).2).
Proof.
  revert w. induction calls as [|c calls IH]; intros w Hw; simpl; [done|].
  unfold mbind, M_bind.
  pose proof (perform_keeps_well_formed c w Hw) as Hstep.
  destruct (perform c w) as [[] w1]. by apply IH.
Qed.

Lemma delete_of_missing e w id :
  Map_get id (store_of e (storage w)) = None → delete_of e id w = (false, w).
Proof.
  intros Hget. rewrite delete_of_run. unfold Map_has. rewrite Hget.
  rewrite (Map_remove_absent _ _ Hget), with_store_of_same. by destruct w.
Qed.

Lemma delete_of_stored e w id old :
  NoDup (store_of e (storage w)).*1 →
  Map_get id (store_of e (storage w)) = Some old →
  Map_get id (store_of e (storage (delete_of e id w).2)) = None
  ∧ (∀ k, k ≠ id → Map_get k (store_of e (storage (delete_of e id w).2))
                   = Map_get k (store_of e (storage w))).
Proof.
  intros Hkeys Hget. rewrite delete_of_run. simpl. rewrite store_of_with_store_of.
  split.
  - by apply Map_get_remove_eq.
  - intros k Hk. by apply Map_get_remove_ne.
Qed.

(** X3.  Deleting under an id that is not stored returns [false] and leaves
    the whole process state as it was, for conversations, goals, notes and
    messages; in particular a second delete of the same id is harmless. *)
Theorem delete_unknown_id (w : World) (id : string) :
  (∀ e, Map_get id (store_of e (storage w)) = None → delete_of e id w = (false, w))
  ∧ (Map_get id (messages (storage w)) = None → Storage.deleteMessage id w = (false, w)).
Proof.
  split.
  - intros e Hget. by apply delete_of_missing.
  - intros Hget. unfold Storage.deleteMessage, mbind, M_bind, get_storage. simpl.
    unfold Map_has. rewrite Hget, (Map_remove_absent _ _ Hget).
    by destruct w as [[] ? ?].
Qed.

(** X4.  Deleting a stored conversation, goal or note from a map without
    repeated keys returns [true]; afterwards the id is not found, every
    other id finds what it found before, the remaining entities keep their
    order, and deleting the same id again returns [false]. *)
Theorem delete_stored_id (e : updatable) (w : World) (id : string) (old : obj) :
  NoDup (store_of e (storage w)).*1 →
  Map_get id (store_of e (storage w)) = Some old →
  let w' := (delete_of e id w).2 in
  (delete_of e id w).1 = true
  ∧ Map_get id (store_of e (storage w')) = None
  ∧ (∀ k, k ≠ id → Map_get k (store_of e (storage w'))
                   = Map_get k (store_of e (storage w)))
  ∧ (store_of e (storage w')).*1 = filter (λ k, k ≠ id) (store_of e (storage w)).*1
  ∧ delete_of e id w' = (false, w').
Proof.
  intros Hkeys Hget w'. subst w'. rewrite delete_of_run. simpl.
  rewrite store_of_with_store_of.
  assert (Hgone : Map_get id (Map_remove id (store_of e (storage w))) = None)
    by by apply Map_get_remove_eq.
  split_and!.
  - unfold Map_has. by rewrite Hget.
  - done.
  - intros k Hk. by apply Map_get_remove_ne.
  - by apply Map_remove_keys.
  - apply delete_of_missing. simpl. by rewrite store_of_with_store_of.
Qed.

(** X5.  Updating under an id that is not stored returns [undefined] and
    changes nothing, neither the store nor the clock position: an update
    never creates an entity. *)
Theorem update_unknown_id (e : updatable) (w : World) (id : string) (data : obj) :
  Map_get id (store_of e (storage w)) = None → update_of e id data w = (None, w).
Proof.
  intros Hget. destruct e; simpl in *.
  - by apply updateConversation_missing.
  - by apply updateGoal_missing.
  - by apply updateNote_missing.
Qed.

(** X6.  Updating a stored conversation, goal or note touches that one
    entry: the keys of its map and their order stay, every other id finds
    what it found before, the maps of the other entity types, the messages
    and the activities are as they were, no id is drawn and the clock is read
    once. *)
Theorem update_touches_one_entry
    (e : updatable) (w : World) (id : string) (data old : obj) :
  Map_get id (store_of e (storage w)) = Some old →
  let w' := (update_of e id data w).2 in
  (store_of e (storage w')).*1 = (store_of e (storage w)).*1
  ∧ (∀ k, k ≠ id → Map_get k (store_of e (storage w'))
                   = Map_get k (store_of e (storage w)))
  ∧ (∀ e', e' ≠ e → store_of e' (storage w') = store_of e' (storage w))
  ∧ messages (storage w') = messages (storage w)
  ∧ activities (storage w') = activities (storage w)
  ∧ uuids_drawn w' = uuids_drawn w
  ∧ clock_reads w' = S (clock_reads w).
Proof.
  intros Hget w'. subst w'. destruct e; simpl in *.
  - rewrite (updateConversation_existing _ _ _ _ Hget). simpl.
    split_and!; try done.
    + by apply (Map_set_keys_present _ _ _ old).
    + intros k Hk. apply Map_get_set_ne. congruence.
    + by intros [].
  - rewrite (updateGoal_existing _ _ _ _ Hget). simpl.
    split_and!; try done.
    + by apply (Map_set_keys_present _ _ _ old).
    + intros k Hk. apply Map_get_set_ne. congruence.
    + by intros [].
  - rewrite (updateNote_existing _ _ _ _ Hget). simpl.
    split_and!; try done.
    + by apply (Map_set_keys_present _ _ _ old).
    + intros k Hk. apply Map_get_set_ne. congruence.
    + by intros [].
Qed.

Lemma compare_createdAt_desc_total a b :
  ¬ before Storage.compare_createdAt_desc a b → before Storage.compare_createdAt_desc b a.
Proof. unfold before, Storage.compare_createdAt_desc. lia. Qed.

Lemma compare_createdAt_trans a b c :
  before Storage.compare_createdAt_asc a b → before Storage.compare_createdAt_asc b c →
  before Storage.compare_createdAt_asc a c.
Proof. unfold before, Storage.compare_createdAt_asc. lia. Qed.

(** X7.  [getActivities] lists every stored activity, each as often as it
    is stored, newest first, and leaves the process state as it was. *)
Theorem getActivities_newest_first (w : World) :
  Sorted createdAt_ge (Storage.getActivities w).1
  ∧ (Storage.getActivities w).1 ≡ₚ Map_values (activities (storage w))
  ∧ (Storage.getActivities w).2 = w.
Proof.
  unfold Storage.getActivities, mbind, M_bind, get_storage. simpl.
  split_and!; [| apply Array_sort_Permutation | done].
  pose proof (Array_sort_Sorted _ compare_createdAt_desc_total
                (Map_values (activities (storage w)))) as Hsorted.
  induction Hsorted as [|a l Hl IH Ha]; constructor; [done|].
  destruct Ha as [|b l Hab]; constructor.
  unfold before, Storage.compare_createdAt_desc in Hab. unfold createdAt_ge. lia.
Qed.

Lemma before_createdAt_Sorted l :
  Sorted createdAt_le l → Sorted (before Storage.compare_createdAt_asc) l.
Proof.
  induction 1 as [|a l Hl IH Ha]; constructor; [done|].
  destruct Ha as [|b l Hab]; constructor.
  unfold createdAt_le in Hab. unfold before, Storage.compare_createdAt_asc. lia.
Qed.

Lemma stamped_not_before n c inserts :
  clock_never_goes_back →
  Forall (λ m, (Date_now c ≤ Message.createdAt m)%Z) (stamped n c inserts).
Proof.
  intros Hclock. revert n c. induction inserts as [|insertMessage rest IH];
    intros n c; simpl; constructor; [done|].
  eapply Forall_impl; [apply IH|]. simpl. intros m Hm.
  etrans; [|exact Hm]. apply Hclock. lia.
Qed.

Lemma stamped_in_order n c inserts :
  clock_never_goes_back →
  StronglySorted (before Storage.compare_createdAt_asc) (stamped n c inserts).
Proof.
  intros Hclock. revert n c. induction inserts as [|insertMessage rest IH];
    intros n c; simpl; constructor; [done|].
  eapply Forall_impl; [apply (stamped_not_before _ (S c) _ Hclock)|].
  simpl. intros m Hm. unfold before, Storage.compare_createdAt_asc. simpl.
  assert (Date_now c ≤ Date_now (S c))%Z by (apply Hclock; lia). lia.
Qed.

(** X8.  With a clock that never goes back and ids that are new, the
    messages of a conversation are listed in the order in which they were
    inserted: after any sequence of insertions into a store without
    messages, the listing is the inserted messages of that conversation, in
    insertion order. *)
Theorem messages_listed_in_arrival_order
    (w : World) (inserts : list InsertMessage) (cid : string) :
  clock_never_goes_back →
  messages (storage w) = [] →
  ids_unused (uuids_drawn w) (length inserts) (messages (storage w)) →
  (Storage.getMessages (VStr cid) (Storage.insert_all inserts w).2).1
  = filter (λ m, strict_equals (Message.conversationId m) (VStr cid) = true)
      (stamped (uuids_drawn w) (clock_reads w) inserts).
Proof.
  intros Hclock Hempty Hunused.
  rewrite getMessages_run, (insert_all_appends _ _ Hunused), Hempty. simpl.
  rewrite Map_values_keyed.
  apply Array_sort_in_order, StronglySorted_Sorted, StronglySorted_filter.
  by apply stamped_in_order.
Qed.

(** X9.  The history the chat handler hands to the gateway is the listing
    of the conversation as it was before the user message was inserted,
    reduced to role and content, when the stored messages sit under their
    own ids and the id drawn for the user message is new. *)
Theorem history_is_previous_listing (w : World) (text cid : string) :
  keyed id_of_message (messages (storage w)) →
  Map_get (randomUUID (uuids_drawn w)) (messages (storage w)) = None →
  history_sent text (VStr cid) w
  = map (λ m, (Message.role m, Message.content m))
        (Storage.getMessages (VStr cid) w).1.
Proof.
  intros [Hkeys Hids] Hfresh. unfold history_sent.
  rewrite createMessage_run, !getMessages_run. simpl.
  unfold Routes.conversationHistory. f_equal.
  rewrite (Map_set_fresh _ _ _ Hfresh), Map_values_app, filter_app. simpl.
  rewrite filter_cons_True by (simpl; apply String.eqb_refl). simpl.
  apply (filter_sort_without _ _ compare_createdAt_total compare_createdAt_trans).
  - simpl. by intros ?.
  - apply Forall_forall. intros m [_ Hm]%list_elem_of_filter. simpl.
    apply Map_get_None_keys in Hfresh. intros Heq. apply Hfresh.
    unfold Map_values in Hm. apply list_elem_of_fmap in Hm as ([k m'] & -> & Hin).
    simpl in Heq. apply (proj1 (Forall_forall _ _) Hids) in Hin as Hid.
    simpl in Hid. unfold id_of_message in Hid. injection Hid as Hid.
    rewrite <- Heq, Hid. apply list_elem_of_fmap. by exists (k, m').
Qed.

End StorageMore.

(** ** The gateway, continued *)

Section GatewayMore.
Context `{Runtime}.

Lemma text_or_nonempty text d : d ≠ "" → Gemini.text_or text d ≠ "".
Proof.
  intros Hd. unfold Gemini.text_or. destruct text as [s|]; [|done].
  destruct (String.eqb s "") eqn:E; [done|]. by apply String.eqb_neq.
Qed.

(** X10.  [chatWithAI] sends the history in its order with the role
    "assistant" renamed "model" and every other role sent as "user", followed
    by the message as a last "user" turn.  It throws exactly when the
    provider rejects, always with the message "Failed to get AI response";
    otherwise it returns the provider's text, or the fixed apology when that
    text is missing or empty, so that a returned reply is never empty. *)
Theorem chatWithAI_outcomes (message : string) (history : list (string * string)) :
  (∃ turns,
     contents (chat_request message history) = Turns turns
     ∧ turns.*2 = (history.*2 ++ [message])%list
     ∧ last turns = Some ("user", message)
     ∧ Forall (λ turn, turn.1 = "user" ∨ turn.1 = "model") turns
     ∧ Forall2 (λ msg turn, turn.1 = "model" ↔ msg.1 = "assistant")
         history (take (length history) turns))
  ∧ (generateContent (chat_request message history) = Rejects
     ↔ Gemini.chatWithAI message history = Thrown "Failed to get AI response")
  ∧ (∀ e, Gemini.chatWithAI message history = Thrown e
          → e = "Failed to get AI response")
  ∧ (∀ reply, Gemini.chatWithAI message history = Returned reply →
       reply ≠ ""
       ∧ (generateContent (chat_request message history) = Resolves (Some reply)
          ∨ reply = Gemini.reply_fallback)).
Proof.
  split_and!.
  - eexists. split; [reflexivity|]. split_and!.
    + rewrite fmap_app. f_equal. induction history as [|msg history IH]; [done|].
      simpl. by f_equal.
    + apply last_snoc.
    + apply Forall_app. split; [|by repeat constructor].
      apply Forall_forall. intros turn ([role text] & -> & _)%list_elem_of_fmap.
      simpl. destruct (String.eqb role "assistant"); [by right | by left].
    + rewrite take_app_length'; [|by rewrite length_map].
      induction history as [|[role text] history IH]; simpl; constructor; [|done].
      simpl. destruct (String.eqb role "assistant") eqn:E.
      * apply String.eqb_eq in E. done.
      * apply String.eqb_neq in E. done.
  - unfold Gemini.chatWithAI. fold (chat_request message history).
    destruct (generateContent _); split; done.
  - unfold Gemini.chatWithAI. fold (chat_request message history).
    destruct (generateContent _); [by intros e [= <-] | done].
  - unfold Gemini.chatWithAI. fold (chat_request message history).
    destruct (generateContent _) as [|text]; [done|].
    intros reply [= <-]. split; [by apply text_or_nonempty|].
    unfold Gemini.text_or. destruct text as [s|]; [|by right].
    destruct (String.eqb s ""); [by right | by left].
Qed.

(** X11.  When the provider answers the summary request, output that
    [JSON.parse] rejects and output that parses to [null] both end in the
    [catch] block and its two strings, while a parsed array with at least one
    item is returned as it is, whatever its length and its items. *)
Theorem generateDailySummary_parsed (chats goals notes : Z) (text : option string) :
  generateContent (summary_request chats goals notes) = Resolves text →
  (JSON_parse (Gemini.text_or text "[]") = None →
   Gemini.generateDailySummary chats goals notes = Returned Gemini.insights_when_failed)
  ∧ (JSON_parse (Gemini.text_or text "[]") = Some VNull →
     Gemini.generateDailySummary chats goals notes
     = Returned Gemini.insights_when_failed)
  ∧ (∀ items, items ≠ [] →
       JSON_parse (Gemini.text_or text "[]") = Some (VArr items) →
       Gemini.generateDailySummary chats goals notes = Returned (VArr items)).
Proof.
  intros Hanswer.
  unfold Gemini.generateDailySummary, Gemini.generateDailySummary_try.
  fold (summary_request chats goals notes). rewrite Hanswer.
  split_and!.
  - by intros ->.
  - by intros ->.
  - intros items Hitems ->. simpl. by destruct items.
Qed.

End GatewayMore.

(** ** The chat handler, continued *)

Section ChatMore.
Context `{Runtime}.

(** X12.  A chat request whose message is missing, is not a string or is
    the empty string is answered 400 "Message is required" whatever else the
    body holds, and the process state is untouched. *)
Theorem chat_requires_message (w : World) (body : obj) :
  (∀ text, prop body "message" = VStr text → text = "") →
  Routes.post_chat body w
  = ({| status := 400; json := JsonError "Message is required" |}, w).
Proof.
  intros Hmessage. unfold Routes.post_chat.
  destruct (prop body "message") as [| | | |text| | |] eqn:Hprop; try done.
  by rewrite (Hmessage text eq_refl).
Qed.

(** X13.  A [conversationId] that is present but falsy (the empty string,
    [null], [0], [false]) is handled exactly like a body without one: the
    answer and the resulting state are those of the request with the field
    removed. *)
Theorem chat_falsy_conversationId_as_omitted (w : World) (body : obj) :
  truthy (prop body "conversationId") = false →
  Routes.post_chat body w = Routes.post_chat (delete "conversationId" body) w.
Proof.
  intros Hfalsy. unfold Routes.post_chat.
  assert (Hmessage : prop (delete "conversationId" body) "message"
                     = prop body "message").
  { unfold prop. by rewrite lookup_delete_ne. }
  assert (Hid : prop (delete "conversationId" body) "conversationId" = VUndef).
  { unfold prop. by rewrite lookup_delete_eq. }
  rewrite Hmessage, Hid.
  destruct (prop body "message") as [| | | |text| | |]; try done.
  destruct (negb (truthy (VStr text))); [done|].
  unfold mbind, M_bind.
  by rewrite !resolve_conversation_new.
Qed.

End ChatMore.

Section ChatExisting.
Context `{Runtime}.



End ChatExisting.

(** ** The schemas *)





(** ** The other handlers *)

Section RestFacts.
Context `{Runtime}.

(** X15.  A PATCH of a goal, a note or a conversation under an id that is
    not stored is answered 404 with the entity's not-found message, and the
    process state is untouched: nothing is created, no activity is logged and
    the clock is not read. *)
Theorem patch_unknown_id (w : World) (id : string) (body : obj) :
  (Map_get id (goals (storage w)) = None →
   Routes.patch_goal id body w
   = ({| status := 404; json := JsonError "Goal not found" |}, w))
  ∧ (Map_get id (notes (storage w)) = None →
     Routes.patch_note id body w
     = ({| status := 404; json := JsonError "Note not found" |}, w))
  ∧ (Map_get id (conversations (storage w)) = None →
     Rest.patch_conversation id body w
     = ({| code := 404; reply := ReplyError "Conversation not found" |}, w)).
Proof.
  split_and!; intros Hget.
  - unfold Routes.patch_goal. unfold_M. simpl. by rewrite Hget.
  - unfold Routes.patch_note. unfold_M.
    by rewrite (updateNote_missing _ _ _ Hget).
  - unfold Rest.patch_conversation. unfold_M.
    by rewrite updateConversation_missing.
Qed.

(** X16.  A PATCH of a stored conversation merges the body as it is into
    the conversation, answers 200 with the merged conversation and, unlike
    the goal and note handlers, logs no activity: only the conversations and
    the clock position change. *)
Theorem patch_conversation_merges_silently
    (w : World) (id : string) (body old : obj) :
  Map_get id (conversations (storage w)) = Some old →
  let updated := patched (Date_now (clock_reads w)) old body in
  Rest.patch_conversation id body w
  = ({| code := 200; reply := ReplyEntity updated |},
     tick_with
       (with_conversations (Map_set id updated (conversations (storage w)))
          (storage w)) w)
  ∧ activities (storage (Rest.patch_conversation id body w).2)
    = activities (storage w)
  ∧ (∀ v k, body !! k = Some v → k ≠ "id" → k ≠ "updatedAt" → prop updated k = v).
Proof.
  intros Hget updated.
  assert (Hrun : Rest.patch_conversation id body w
    = ({| code := 200; reply := ReplyEntity updated |},
       tick_with
         (with_conversations (Map_set id updated (conversations (storage w)))
            (storage w)) w)).
  { unfold Rest.patch_conversation. unfold_M.
    by rewrite (updateConversation_existing _ _ _ _ Hget). }
  rewrite Hrun. split_and!; [done | done |].
  intros v k Hk Hid Hupdated. unfold updated, patched.
  rewrite !prop_insert_ne by done. by apply prop_spread_Some.
Qed.






Lemma activities_with_store_of e m s :
  activities (with_store_of e m s) = activities s
  ∧ messages (with_store_of e m s) = messages s.
Proof. by destruct e. Qed.

Lemma delete_route_run e id w :
  delete_route e id w
  = (if Map_has id (store_of e (storage w))
     then {| code := 200; reply := ReplySuccess |}
     else {| code := 404; reply := ReplyError (not_found e) |},
     (delete_of e id w).2).
Proof.
  destruct e; simpl;
    [unfold Rest.delete_conversation, Storage.deleteConversation
    |unfold Rest.delete_goal, Storage.deleteGoal
    |unfold Rest.delete_note, Storage.deleteNote];
    unfold mbind, M_bind, get_storage; simpl;
    by destruct (Map_has id _).
Qed.

(** X20.  A DELETE of a conversation, a goal or a note under an id that is
    not stored is answered 404 with the entity's not-found message and
    changes nothing.  Under a stored id (in a map without repeated keys) it
    is answered 200 with success, the id is no longer found, and nothing else
    is written: the activities and the messages are as before, no id is drawn
    and the clock is not read. *)
Theorem delete_route_answers (e : updatable) (w : World) (id : string) :
  (Map_get id (store_of e (storage w)) = None →
   delete_route e id w = ({| code := 404; reply := ReplyError (not_found e) |}, w))
  ∧ (∀ old,
       NoDup (store_of e (storage w)).*1 →
       Map_get id (store_of e (storage w)) = Some old →
       let after := delete_route e id w in
       after.1 = {| code := 200; reply := ReplySuccess |}
       ∧ Map_get id (store_of e (storage after.2)) = None
       ∧ (∀ k, k ≠ id → Map_get k (store_of e (storage after.2))
                        = Map_get k (store_of e (storage w)))
       ∧ activities (storage after.2) = activities (storage w)
       ∧ messages (storage after.2) = messages (storage w)
       ∧ uuids_drawn after.2 = uuids_drawn w
       ∧ clock_reads after.2 = clock_reads w).
Proof.
  split.
  - intros Hget. rewrite delete_route_run.
    rewrite (delete_of_missing e w id Hget). simpl.
    unfold Map_has. by rewrite Hget.
  - intros old Hkeys Hget after. subst after. rewrite delete_route_run.
    destruct (delete_of_stored e w id old Hkeys Hget) as (Hgone & Hothers).
    simpl. split_and!; try done.
    + unfold Map_has. by rewrite Hget.
    + rewrite delete_of_run. simpl. apply activities_with_store_of.
    + rewrite delete_of_run. simpl. apply activities_with_store_of.
    + by rewrite delete_of_run.
    + by rewrite delete_of_run.
Qed.

(** X21.  Deleting a conversation does not delete its messages: the
    messages are as before and every listing of messages answers what it
    answered before, while (in a map without repeated keys) the conversation
    itself is no longer found; so a message of the deleted conversation is
    left naming a conversation that is not stored. *)
Theorem delete_conversation_keeps_messages (w : World) (id : string) :
  let after := (Rest.delete_conversation id w).2 in
  messages (storage after) = messages (storage w)
  ∧ (∀ cid, (Rest.get_messages cid after).1 = (Rest.get_messages cid w).1)
  ∧ (NoDup (conversations (storage w)).*1 →
     (Rest.get_conversation id after).1
     = {| code := 404; reply := ReplyError "Conversation not found" |}
     ∧ ∀ m, m ∈ Map_values (messages (storage w)) →
            Message.conversationId m = VStr id →
            ¬ references_ok (storage after)).
Proof.
  intros after. subst after.
  change (Rest.delete_conversation id w) with (delete_route Conversation id w).
  rewrite delete_route_run, delete_of_run. simpl.
  split_and!; [done | done |].
  intros Hkeys.
  assert (Hgone : Map_get id (Map_remove id (conversations (storage w))) = None)
    by by apply Map_get_remove_eq.
  split.
  - unfold Rest.get_conversation, mbind, M_bind. rewrite getConversation_run.
    simpl. by rewrite Hgone.
  - intros m Hm Hcid Hrefs. unfold references_ok in Hrefs. simpl in Hrefs.
    apply (proj1 (Forall_forall _ _) Hrefs) in Hm as (k & Hk & Hsome).
    rewrite Hcid in Hk. injection Hk as <-. rewrite Hgone in Hsome.
    by destruct Hsome.
Qed.

End RestFacts.

(** ** What every request keeps *)

Create HintDb keeps discriminated.

Section KeepsFacts.
Context `{Runtime}.

Lemma keeps_ret {A} (I : MemStorage → Prop) (a : A) : keeps I (mret a).
Proof. by intros w Hw. Qed.

Lemma keeps_bind {A B} (I : MemStorage → Prop) (m : M A) (f : A → M B) :
  keeps I m → (∀ a, keeps I (f a)) → keeps I (m ≫= f).
Proof.
  intros Hm Hf w Hw. unfold mbind, M_bind.
  specialize (Hm w Hw). destruct (m w) as [a w1]. by apply Hf.
Qed.

Lemma keeps_read {A} (I : MemStorage → Prop) (m : M A) :
  (∀ w, storage (m w).2 = storage w) → keeps I m.
Proof. intros Hread w Hw. by rewrite Hread. Qed.

Lemma keeps_perform (I : MemStorage → Prop) {A} (m : M A) (c : call) :
  (∀ w, (perform c w).2 = (m w).2) → keeps I (perform c) → keeps I m.
Proof. intros Hsame Hc w Hw. rewrite <- Hsame. by apply Hc. Qed.

Lemma createConversation_well_formed insertConversation :
  keeps well_formed (Storage.createConversation insertConversation).
Proof.
  apply (keeps_perform _ _ (CreateConversation insertConversation)); [done|].
  apply perform_keeps_well_formed.
Qed.

Lemma updateConversation_well_formed id data :
  keeps well_formed (Storage.updateConversation id data).
Proof.
  apply (keeps_perform _ _ (UpdateConversation id data)).
  - intros w. unfold perform, mbind, M_bind.
    by destruct (Storage.updateConversation id data w).
  - apply perform_keeps_well_formed.
Qed.

Lemma deleteConversation_well_formed id :
  keeps well_formed (Storage.deleteConversation id).
Proof.
  apply (keeps_perform _ _ (DeleteConversation id)); [done|].
  apply perform_keeps_well_formed.
Qed.

Lemma createMessage_well_formed insertMessage :
  keeps well_formed (Storage.createMessage insertMessage).
Proof.
  apply (keeps_perform _ _ (CreateMessage insertMessage)); [done|].
  apply perform_keeps_well_formed.
Qed.

Lemma createGoal_well_formed insertGoal :
  keeps well_formed (Storage.createGoal insertGoal).
Proof.
  apply (keeps_perform _ _ (CreateGoal insertGoal)); [done|].
  apply perform_keeps_well_formed.
Qed.

Lemma updateGoal_well_formed id data : keeps well_formed (Storage.updateGoal id data).
Proof.
  apply (keeps_perform _ _ (UpdateGoal id data)).
  - intros w. unfold perform, mbind, M_bind.
    by destruct (Storage.updateGoal id data w).
  - apply perform_keeps_well_formed.
Qed.

Lemma deleteGoal_well_formed id : keeps well_formed (Storage.deleteGoal id).
Proof.
  apply (keeps_perform _ _ (DeleteGoal id)); [done|].
  apply perform_keeps_well_formed.
Qed.

Lemma createNote_well_formed insertNote :
  keeps well_formed (Storage.createNote insertNote).
Proof.
  apply (keeps_perform _ _ (CreateNote insertNote)); [done|].
  apply perform_keeps_well_formed.
Qed.

Lemma updateNote_well_formed id data : keeps well_formed (Storage.updateNote id data).
Proof.
  apply (keeps_perform _ _ (UpdateNote id data)).
  - intros w. unfold perform, mbind, M_bind.
    by destruct (Storage.updateNote id data w).
  - apply perform_keeps_well_formed.
Qed.

Lemma deleteNote_well_formed id : keeps well_formed (Storage.deleteNote id).
Proof.
  apply (keeps_perform _ _ (DeleteNote id)); [done|].
  apply perform_keeps_well_formed.
Qed.

Lemma createActivity_well_formed insertActivity :
  keeps well_formed (Storage.createActivity insertActivity).
Proof.
  apply (keeps_perform _ _ (CreateActivity insertActivity)); [done|].
  apply perform_keeps_well_formed.
Qed.

(** The reading methods keep whatever holds of the store. *)
Lemma reads_keep (I : MemStorage → Prop) :
  (∀ id, keeps I (Storage.getConversation id))
  ∧ (∀ id, keeps I (Storage.getMessages id))
  ∧ (∀ id, keeps I (Storage.getGoal id))
  ∧ (∀ id, keeps I (Storage.getNote id))
  ∧ keeps I Storage.getActivities
  ∧ keeps I Storage.new_Date.
Proof. split_and!; intros; by apply keeps_read. Qed.

End KeepsFacts.

#[local] Hint Resolve createConversation_well_formed updateConversation_well_formed
  deleteConversation_well_formed createMessage_well_formed createGoal_well_formed
  updateGoal_well_formed deleteGoal_well_formed createNote_well_formed
  updateNote_well_formed deleteNote_well_formed createActivity_well_formed : keeps.

(** Walk through a handler: a bind keeps what both of its parts keep, a
    branch what each of its arms keeps. *)
Ltac keeps_step :=
  first
    [ solve [auto with keeps]
    | match goal with
      | |- keeps _ (mret _) => apply keeps_ret
      | |- keeps _ (Storage.getConversation _) => apply reads_keep
      | |- keeps _ (Storage.getMessages _) => apply reads_keep
      | |- keeps _ (Storage.getGoal _) => apply reads_keep
      | |- keeps _ (Storage.getNote _) => apply reads_keep
      | |- keeps _ Storage.getActivities => apply reads_keep
      | |- keeps _ Storage.new_Date => apply reads_keep
      | |- keeps _ (match ?x with _ => _ end) => destruct x
      | |- keeps _ (_ ≫= _) => apply keeps_bind; [|intros ?]
      end ].

Ltac keeps_walk := repeat keeps_step.

Section RequestsKeep.
Context `{Runtime}.

Lemma serve_keeps_well_formed format_day r : keeps well_formed (serve format_day r).
Proof.
  destruct r; unfold serve;
    unfold Rest.get_conversation, Rest.post_conversation, Rest.patch_conversation,
      Rest.delete_conversation, Rest.get_messages, Routes.post_chat,
      Routes.resolve_conversation, Routes.chat_exchange, Rest.get_goal,
      Rest.post_goal, Routes.patch_goal, Rest.delete_goal, Rest.get_note,
      Rest.post_note, Routes.patch_note, Rest.delete_note, Rest.get_activities,
      Rest.post_activity, Rest.get_daily_summary; cbv zeta; keeps_walk.
Qed.

(** X22.  Whatever sequence of requests is served, with whatever bodies,
    provider behaviour and ids drawn, a well-formed store stays well formed:
    no map holds a key twice and every entity is stored under the id it
    carries, so not even a PATCH body with an [id] of its own can move an
    entity. *)
Theorem requests_keep_well_formed
    (format_day : Z → string) (requests : list request) (w : World) :
  well_formed (storage w) →
  well_formed (storage (serve_all format_day requests w).2).
Proof.
  revert w. induction requests as [|r requests IH]; intros w Hw; simpl; [done|].
  unfold mbind, M_bind.
  pose proof (serve_keeps_well_formed format_day r w Hw) as Hstep.
  destruct (serve format_day r w) as [code w1]. by apply IH.
Qed.

End RequestsKeep.

Section ReferencesKeep.
Context `{Runtime}.

Lemma Map_set_is_Some {V} (m : list (string * V)) k k' v :
  is_Some (Map_get k m) → is_Some (Map_get k (Map_set k' v m)).
Proof.
  intros Hsome. destruct (decide (k' = k)) as [->|Hne].
  - rewrite Map_get_set_eq. by eexists.
  - by rewrite Map_get_set_ne.
Qed.

Lemma Map_set_values_Forall {V} (P : V → Prop) (m : list (string * V)) k v :
  Forall P (Map_values m) → P v → Forall P (Map_values (Map_set k v m)).
Proof.
  intros Hm Hv. induction m as [|[k' v'] m IH]; simpl.
  - by repeat constructor.
  - apply Forall_cons in Hm as [Hhead Hm].
    destruct (String.eqb k k'); constructor; try done. by apply IH.
Qed.

(** More conversations and the same messages leave the references intact. *)
Lemma references_ok_grow s s' :
  messages s' = messages s →
  (∀ k, is_Some (Map_get k (conversations s)) →
        is_Some (Map_get k (conversations s'))) →
  references_ok s → references_ok s'.
Proof.
  intros Hmessages Hkeys Hrefs. unfold references_ok. rewrite Hmessages.
  eapply Forall_impl; [exact Hrefs|]. simpl.
  intros m (k & Hk & Hsome). exists k. split; [done | by apply Hkeys].
Qed.

Lemma keeps_references_frame {A} (m : M A) :
  (∀ w, conversations (storage (m w).2) = conversations (storage w)
        ∧ messages (storage (m w).2) = messages (storage w)) →
  keeps references_ok m ∧ ∀ cid, keeps (references_ok_with cid) m.
Proof.
  intros Hframe. split.
  - intros w Hw. destruct (Hframe w) as [Hc Hm].
    apply (references_ok_grow (storage w)); [done | | done].
    intros k. by rewrite Hc.
  - intros cid w [Hw Hcid]. destruct (Hframe w) as [Hc Hm]. split.
    + apply (references_ok_grow (storage w)); [done | | done].
      intros k. by rewrite Hc.
    + by rewrite Hc.
Qed.

Lemma createConversation_references insertConversation :
  keeps references_ok (Storage.createConversation insertConversation).
Proof.
  intros w Hw. rewrite createConversation_run. simpl.
  apply (references_ok_grow (storage w)); [done | | done].
  intros k. apply Map_set_is_Some.
Qed.

Lemma updateConversation_references id data :
  keeps references_ok (Storage.updateConversation id data)
  ∧ ∀ cid, keeps (references_ok_with cid) (Storage.updateConversation id data).
Proof.
  assert (Hgrow : ∀ w k,
    is_Some (Map_get k (conversations (storage w))) →
    is_Some (Map_get k
      (conversations (storage (Storage.updateConversation id data w).2)))
    ∧ messages (storage (Storage.updateConversation id data w).2)
      = messages (storage w)).
  { intros w k Hsome.
    destruct (Map_get_value id (conversations (storage w))) as [old|] eqn:Hget.
    - destruct id as [| | | |k'| | |]; try done. simpl in Hget.
      rewrite (updateConversation_existing _ _ _ _ Hget). simpl.
      split; [by apply Map_set_is_Some | done].
    - by rewrite (updateConversation_missing _ _ _ Hget). }
  assert (Hmessages : ∀ w,
    messages (storage (Storage.updateConversation id data w).2)
    = messages (storage w)).
  { intros w.
    destruct (Map_get_value id (conversations (storage w))) as [old|] eqn:Hget.
    - destruct id as [| | | |k'| | |]; try done. simpl in Hget.
      by rewrite (updateConversation_existing _ _ _ _ Hget).
    - by rewrite (updateConversation_missing _ _ _ Hget). }
  split.
  - intros w Hw. apply (references_ok_grow (storage w)); [done | | done].
    intros k Hk. by apply Hgrow.
  - intros cid w [Hw Hcid]. split; [|by apply Hgrow].
    apply (references_ok_grow (storage w)); [done | | done].
    intros k Hk. by apply Hgrow.
Qed.

Lemma createMessage_references cid role content :
  keeps (references_ok_with cid)
    (Storage.createMessage
       {| im_conversationId := VStr cid; im_role := role; im_content := content |}).
Proof.
  intros w [Hw Hcid]. rewrite createMessage_run. simpl. split; [|done].
  unfold references_ok. simpl. apply Map_set_values_Forall; [done|].
  simpl. by exists cid.
Qed.

Lemma createActivity_references insertActivity :
  keeps references_ok (Storage.createActivity insertActivity)
  ∧ ∀ cid, keeps (references_ok_with cid) (Storage.createActivity insertActivity).
Proof. by apply keeps_references_frame. Qed.

Lemma goal_note_writes_references :
  (∀ i, keeps references_ok (Storage.createGoal i))
  ∧ (∀ i, keeps references_ok (Storage.createNote i))
  ∧ (∀ id, keeps references_ok (Storage.deleteGoal id))
  ∧ (∀ id, keeps references_ok (Storage.deleteNote id))
  ∧ (∀ id data, keeps references_ok (Storage.updateGoal id data))
  ∧ (∀ id data, keeps references_ok (Storage.updateNote id data)).
Proof.
  split_and!; intros; apply keeps_references_frame; intros w; try done.
  - destruct (Map_get id (goals (storage w))) as [old|] eqn:Hget.
    + by rewrite (updateGoal_existing _ _ _ _ Hget).
    + by rewrite (updateGoal_missing _ _ _ Hget).
  - destruct (Map_get id (notes (storage w))) as [old|] eqn:Hget.
    + by rewrite (updateNote_existing _ _ _ _ Hget).
    + by rewrite (updateNote_missing _ _ _ Hget).
Qed.

End ReferencesKeep.

#[local] Hint Resolve createConversation_references createMessage_references : keeps.
#[local] Hint Extern 1 (keeps references_ok (Storage.updateConversation _ _)) =>
  apply updateConversation_references : keeps.
#[local] Hint Extern 1 (keeps (references_ok_with _) (Storage.updateConversation _ _)) =>
  apply updateConversation_references : keeps.
#[local] Hint Extern 1 (keeps references_ok (Storage.createActivity _)) =>
  apply createActivity_references : keeps.
#[local] Hint Extern 1 (keeps (references_ok_with _) (Storage.createActivity _)) =>
  apply createActivity_references : keeps.
#[local] Hint Extern 1 (keeps references_ok _) =>
  apply goal_note_writes_references : keeps.

Section RequestsKeepReferences.
Context `{Runtime}.

Lemma chat_exchange_references text cid :
  keeps (references_ok_with cid) (Routes.chat_exchange text (VStr cid)).
Proof. unfold Routes.chat_exchange. keeps_walk. Qed.

Lemma post_chat_references body : keeps references_ok (Routes.post_chat body).
Proof.
  intros w Hw. unfold Routes.post_chat.
  destruct (prop body "message") as [| | | |text| | |]; try done.
  destruct (negb (truthy (VStr text))); [done|].
  unfold mbind at 1, M_bind at 1.
  destruct (truthy (prop body "conversationId")) eqn:Hid.
  - rewrite (resolve_conversation_given _ _ _ Hid).
    destruct (prop body "conversationId") as [| | | |cid| | |]; try done.
    simpl. destruct (Map_get cid (conversations (storage w))) eqn:Hget; [|done].
    apply chat_exchange_references. split; [done|]. by rewrite Hget.
  - rewrite (resolve_conversation_new _ _ _ Hid), createConversation_run.
    apply chat_exchange_references. split.
    + by apply (createConversation_references _ w).
    + unfold draw_tick_with, with_conversations. cbn [storage conversations snd].
      rewrite Map_get_set_eq. by eexists.
Qed.

Lemma serve_keeps_references format_day r :
  (∀ id, r ≠ DELETE_conversation id) → keeps references_ok (serve format_day r).
Proof.
  intros Hr. destruct r; try (by destruct (Hr id)); unfold serve;
    try (apply keeps_bind; [apply post_chat_references | intros; apply keeps_ret]);
    unfold Rest.get_conversation, Rest.post_conversation, Rest.patch_conversation,
      Rest.get_messages, Rest.get_goal,
      Rest.post_goal, Routes.patch_goal, Rest.delete_goal, Rest.get_note,
      Rest.post_note, Routes.patch_note, Rest.delete_note, Rest.get_activities,
      Rest.post_activity, Rest.get_daily_summary; cbv zeta; keeps_walk.
Qed.

(** X23.  Whatever sequence of requests other than the deletion of a
    conversation is served, if every stored message names a stored
    conversation before, this is so afterwards: the chat handler only
    inserts messages into a conversation it has found or created, and no
    other handler removes a conversation or writes a message. *)
Theorem requests_keep_references
    (format_day : Z → string) (requests : list request) (w : World) :
  Forall (λ r, ∀ id, r ≠ DELETE_conversation id) requests →
  references_ok (storage w) →
  references_ok (storage (serve_all format_day requests w).2).
Proof.
  intros Hrequests. revert w.
  induction Hrequests as [|r requests Hr Hrequests IH]; intros w Hw; simpl; [done|].
  unfold mbind, M_bind.
  pose proof (serve_keeps_references format_day r Hr w Hw) as Hstep.
  destruct (serve format_day r w) as [code w1]. by apply IH.
Qed.

End RequestsKeepReferences.

(** ** The daily summary *)

Section SummaryRoute.
Context `{Runtime}.

Lemma generateDailySummary_returns chats goals notes :
  ∃ insights, Gemini.generateDailySummary chats goals notes = Returned insights.
Proof.
  unfold Gemini.generateDailySummary.
  destruct (Gemini.generateDailySummary_try chats goals notes); by eexists.
Qed.

Lemma count_of_type (today : string) (format_day : Z → string) (type : string)
    (l l' : list Activity.t) :
  l ≡ₚ l' →
  length (filter (λ a, Activity.type a = type)
            (filter (λ a, format_day (Activity.createdAt a) = today) l))
  = length (filter (λ a, Activity.type a = type
                         ∧ format_day (Activity.createdAt a) = today) l').
Proof. intros Hperm. rewrite list_filter_filter. by rewrite Hperm. Qed.

Lemma counts_of_three_types (P : Activity.t → Prop) `{!∀ a, Decision (P a)}
    (l : list Activity.t) :
  (length (filter (λ a, Activity.type a = "chat" ∧ P a) l)
   + length (filter (λ a, Activity.type a = "goal_completed" ∧ P a) l)
   + length (filter (λ a, Activity.type a = "note_created" ∧ P a) l)
   ≤ length l)%nat.
Proof.
  induction l as [|a l IH]; simpl; [done|].
  rewrite !filter_cons.
  destruct (decide (Activity.type a = "chat" ∧ P a)) as [[Ha _]|_];
    destruct (decide (Activity.type a = "goal_completed" ∧ P a)) as [[Hb _]|_];
    destruct (decide (Activity.type a = "note_created" ∧ P a)) as [[Hc _]|_];
    simpl; try congruence; lia.
Qed.

(** X24.  The daily summary is always answered 200, whatever the provider
    does, and only reads the clock.  Its date is the day of the current
    time; its three counters are the numbers of stored activities of that
    day of type "chat", "goal_completed" and "note_created", so that their
    sum is at most the number of stored activities; and when the provider
    rejects the request, the insights are the two strings of the gateway's
    [catch] block. *)
Theorem daily_summary_answers (format_day : Z → string) (w : World) :
  let today := format_day (Date_now (clock_reads w)) in
  let counted (type : string) : nat :=
    length (filter (λ a, Activity.type a = type
                         ∧ format_day (Activity.createdAt a) = today)
              (Map_values (activities (storage w)))) in
  ∃ summary,
    Rest.get_daily_summary format_day w
    = ({| code := 200; reply := ReplySummary summary |}, tick_with (storage w) w)
    ∧ date summary = today
    ∧ totalChats summary = counted "chat"
    ∧ goalsCompleted summary = counted "goal_completed"
    ∧ notesCreated summary = counted "note_created"
    ∧ (totalChats summary + goalsCompleted summary + notesCreated summary
       ≤ length (activities (storage w)))%nat
    ∧ (generateContent
         (summary_request (Z.of_nat (counted "chat"))
            (Z.of_nat (counted "goal_completed"))
            (Z.of_nat (counted "note_created"))) = Rejects →
       insights summary = Gemini.insights_when_failed).
Proof.
  intros today counted.
  unfold Rest.get_daily_summary, Storage.getActivities, mbind, M_bind, get_storage.
  simpl. fold today.
  set (listed := Array_sort Storage.compare_createdAt_desc
                   (Map_values (activities (storage w)))).
  assert (Hlisted : listed ≡ₚ Map_values (activities (storage w)))
    by apply Array_sort_Permutation.
  rewrite !(count_of_type today format_day _ listed _ Hlisted).
  fold (counted "chat") (counted "goal_completed") (counted "note_created").
  destruct (generateDailySummary_returns (Z.of_nat (counted "chat"))
              (Z.of_nat (counted "goal_completed"))
              (Z.of_nat (counted "note_created"))) as [insights Hinsights].
  rewrite Hinsights. eexists. split; [reflexivity|]. simpl.
  split_and!; try done.
  - unfold counted.
    etrans; [apply (counts_of_three_types
                      (λ a, format_day (Activity.createdAt a) = today))|].
    unfold Map_values. by rewrite length_fmap.
  - intros Hrejects. revert Hinsights.
    unfold Gemini.generateDailySummary, Gemini.generateDailySummary_try.
    fold (summary_request (Z.of_nat (counted "chat"))
            (Z.of_nat (counted "goal_completed"))
            (Z.of_nat (counted "note_created"))).
    rewrite Hrejects. by intros [= <-].
Qed.

End SummaryRoute.

(** ** The further statements on concrete inputs *)

Lemma calls_keep_well_formed_witness :
  well_formed
    (storage (@perform_all Sample.answering Scenario.calls Sample.fresh_world).2).
Proof.
  apply (@calls_keep_well_formed Sample.answering Scenario.calls Sample.fresh_world).
  repeat split; constructor.
Defined.

Lemma delete_unknown_id_witness :
  delete_of Goal "uuid-9" Sample.seeded_world
  = (false, Sample.seeded_world)
  ∧ Storage.deleteMessage "uuid-9" Sample.seeded_world = (false, Sample.seeded_world).
Proof.
  split.
  - apply (proj1 (delete_unknown_id Sample.seeded_world "uuid-9")).
    reflexivity.
  - apply (proj2 (delete_unknown_id Sample.seeded_world "uuid-9")).
    reflexivity.
Defined.

Lemma delete_stored_id_witness :
  let w' := (delete_of Goal "uuid-1" Sample.seeded_world).2 in
  (delete_of Goal "uuid-1" Sample.seeded_world).1 = true
  ∧ Map_get "uuid-1" (goals (storage w')) = None
  ∧ delete_of Goal "uuid-1" w' = (false, w').
Proof.
  destruct (delete_stored_id Goal Sample.seeded_world "uuid-1"
              Sample.seeded_goal) as (Hret & Hgone & _ & _ & Hagain).
  - apply NoDup_singleton.
  - reflexivity.
  - split_and!; done.
Defined.

Lemma update_unknown_id_witness :
  @update_of Sample.answering Note "uuid-9" {["title" := VStr "New"]}
    Sample.seeded_world
  = (None, Sample.seeded_world).
Proof.
  apply (@update_unknown_id Sample.answering Note Sample.seeded_world "uuid-9").
  reflexivity.
Defined.

Lemma update_touches_one_entry_witness :
  let w' := (@update_of Sample.answering Note "uuid-2" {["title" := VStr "New"]}
               Sample.seeded_world).2 in
  (notes (storage w')).*1 = ["uuid-2"]
  ∧ goals (storage w') = goals (storage Sample.seeded_world)
  ∧ clock_reads w' = 4.
Proof.
  destruct (@update_touches_one_entry Sample.answering Note Sample.seeded_world
              "uuid-2" {["title" := VStr "New"]} Sample.seeded_note)
    as (Hkeys & _ & Hothers & _ & _ & _ & Hclock).
  - reflexivity.
  - split_and!.
    + exact Hkeys.
    + exact (Hothers Goal ltac:(discriminate)).
    + exact Hclock.
Defined.

Lemma messages_listed_in_arrival_order_witness :
  (Storage.getMessages (VStr "a")
     (@Storage.insert_all Sample.answering Sample.interleaved Sample.fresh_world).2).1
  = [ {| Message.id := "uuid-0"; Message.conversationId := VStr "a";
         Message.role := "user"; Message.content := "one";
         Message.createdAt := 1700000000000 |};
      {| Message.id := "uuid-2"; Message.conversationId := VStr "a";
         Message.role := "assistant"; Message.content := "three";
         Message.createdAt := 1700000000002 |} ].
Proof.
  rewrite (@messages_listed_in_arrival_order Sample.answering Sample.fresh_world
             Sample.interleaved "a").
  - vm_compute. reflexivity.
  - intros i j Hij. simpl. lia.
  - reflexivity.
  - unfold ids_unused. apply (bool_decide_unpack _). vm_compute. exact I.
Defined.

Lemma history_is_previous_listing_witness :
  @history_sent Sample.answering "again" (VStr "uuid-0") Scenario.chatted_world
  = [("user", "hi"); ("assistant", "Sure.")].
Proof.
  rewrite (@history_is_previous_listing Sample.answering Scenario.chatted_world
             "again" "uuid-0").
  - vm_compute. reflexivity.
  - split.
    + apply (bool_decide_unpack _). vm_compute. exact I.
    + vm_compute. repeat constructor.
  - vm_compute. reflexivity.
Defined.

Lemma chatWithAI_outcomes_witness :
  @Gemini.chatWithAI Sample.answering "hi" [("assistant", "Hello.")] = Returned "Sure."
  ∧ "Sure." ≠ ""
  ∧ @Gemini.chatWithAI Sample.failing "hi" [] = Thrown "Failed to get AI response".
Proof.
  split_and!.
  - reflexivity.
  - apply (proj2 (proj2 (proj2
      (@chatWithAI_outcomes Sample.answering "hi" [("assistant", "Hello.")])))
      "Sure.").
    reflexivity.
  - apply (proj1 (proj2 (@chatWithAI_outcomes Sample.failing "hi" []))).
    reflexivity.
Defined.

Lemma generateDailySummary_parsed_witness :
  @Gemini.generateDailySummary Sample.answering 2 1 3
  = Returned Gemini.insights_when_failed
  ∧ @Gemini.generateDailySummary Scenario.one_insight 2 1 3
    = Returned (VArr [VStr "Nice."]).
Proof.
  split.
  - apply (proj1
      (@generateDailySummary_parsed Sample.answering 2 1 3 (Some "Sure.") eq_refl)).
    reflexivity.
  - apply (proj2 (proj2
      (@generateDailySummary_parsed Scenario.one_insight 2 1 3 (Some "[...]")
         eq_refl))); [discriminate | reflexivity].
Defined.

Lemma chat_requires_message_witness :
  @Routes.post_chat Sample.answering {["message" := VNum 7]} Sample.seeded_world
  = ({| status := 400; json := JsonError "Message is required" |}, Sample.seeded_world).
Proof.
  apply (@chat_requires_message Sample.answering Sample.seeded_world
           {["message" := VNum 7]}).
  intros text Hmessage. vm_compute in Hmessage. discriminate.
Defined.

Lemma chat_falsy_conversationId_as_omitted_witness :
  @Routes.post_chat Sample.answering
    {["message" := VStr "hi"; "conversationId" := VStr ""]} Sample.seeded_world
  = @Routes.post_chat Sample.answering
      (delete "conversationId"
         ({["message" := VStr "hi"; "conversationId" := VStr ""]} : obj))
      Sample.seeded_world.
Proof.
  apply (@chat_falsy_conversationId_as_omitted Sample.answering Sample.seeded_world
           {["message" := VStr "hi"; "conversationId" := VStr ""]}).
  vm_compute. reflexivity.
Defined.


Lemma patch_unknown_id_witness :
  @Routes.patch_goal Sample.answering "uuid-9" {["progress" := VNum 5]}
    Sample.seeded_world
  = ({| status := 404; json := JsonError "Goal not found" |}, Sample.seeded_world)
  ∧ @Routes.patch_note Sample.answering "uuid-9" ∅ Sample.seeded_world
    = ({| status := 404; json := JsonError "Note not found" |}, Sample.seeded_world)
  ∧ @Rest.patch_conversation Sample.answering "uuid-9" ∅ Sample.seeded_world
    = ({| code := 404; reply := ReplyError "Conversation not found" |},
       Sample.seeded_world).
Proof.
  split_and!.
  - apply (@patch_unknown_id Sample.answering Sample.seeded_world "uuid-9").
    reflexivity.
  - apply (@patch_unknown_id Sample.answering Sample.seeded_world "uuid-9" ∅).
    reflexivity.
  - apply (@patch_unknown_id Sample.answering Sample.seeded_world "uuid-9" ∅).
    reflexivity.
Defined.

Lemma patch_conversation_merges_silently_witness :
  code (@Rest.patch_conversation Sample.answering "uuid-0" {["title" := VNum 42]}
          Sample.seeded_world).1 = 200
  ∧ activities
      (storage (@Rest.patch_conversation Sample.answering "uuid-0"
                  {["title" := VNum 42]} Sample.seeded_world).2)
    = activities (storage Sample.seeded_world)
  ∧ prop (patched 1700000000003 Sample.seeded_conversation {["title" := VNum 42]})
      "title" = VNum 42.
Proof.
  destruct (@patch_conversation_merges_silently Sample.answering Sample.seeded_world
              "uuid-0" {["title" := VNum 42]} Sample.seeded_conversation)
    as (Hrun & Hacts & Hmerged).
  - reflexivity.
  - split_and!; [by rewrite Hrun | done |].
    apply (Hmerged (VNum 42) "title"); [vm_compute; reflexivity | done | done].
Defined.




Lemma delete_route_answers_witness :
  delete_route Note "uuid-9" Sample.seeded_world
  = ({| code := 404; reply := ReplyError "Note not found" |}, Sample.seeded_world)
  ∧ (delete_route Note "uuid-2" Sample.seeded_world).1
    = {| code := 200; reply := ReplySuccess |}
  ∧ activities (storage (delete_route Note "uuid-2"
                           Sample.seeded_world).2) = [].
Proof.
  split_and!.
  - apply (delete_route_answers Note Sample.seeded_world "uuid-9").
    reflexivity.
  - apply (proj2 (delete_route_answers Note Sample.seeded_world
                    "uuid-2") Sample.seeded_note); [apply NoDup_singleton | reflexivity].
  - destruct (proj2 (delete_route_answers Note Sample.seeded_world
                       "uuid-2") Sample.seeded_note)
      as (_ & _ & _ & Hacts & _); [apply NoDup_singleton | reflexivity |].
    by rewrite Hacts.
Defined.

Lemma delete_conversation_keeps_messages_witness :
  let after := (Rest.delete_conversation "uuid-0"
                  Scenario.chatted_world).2 in
  (Rest.get_conversation "uuid-0" after).1
  = {| code := 404; reply := ReplyError "Conversation not found" |}
  ∧ Message.content <$> Map_values (messages (storage after)) = ["hi"; "Sure."]
  ∧ ¬ references_ok (storage after).
Proof.
  destruct (delete_conversation_keeps_messages
              Scenario.chatted_world "uuid-0") as (Hmessages & _ & Hgone).
  destruct Hgone as [Hnotfound Hdangling]; [apply NoDup_singleton|].
  split_and!.
  - exact Hnotfound.
  - cbv zeta in Hmessages. rewrite Hmessages. vm_compute. reflexivity.
  - apply (Hdangling
             {| Message.id := "uuid-3"; Message.conversationId := VStr "uuid-0";
                Message.role := "user"; Message.content := "hi";
                Message.createdAt := 1700000000003 |}).
    + vm_compute. by left.
    + reflexivity.
Defined.

Lemma requests_keep_well_formed_witness :
  well_formed
    (storage (@serve_all Sample.answering Scenario.day Scenario.session
                Sample.fresh_world).2).
Proof.
  apply (@requests_keep_well_formed Sample.answering Scenario.day Scenario.session
           Sample.fresh_world).
  repeat split; constructor.
Defined.

Lemma requests_keep_references_witness :
  references_ok
    (storage (@serve_all Sample.answering Scenario.day Scenario.session
                Sample.fresh_world).2).
Proof.
  apply (@requests_keep_references Sample.answering Scenario.day Scenario.session
           Sample.fresh_world).
  - unfold Scenario.session. repeat constructor; by intros id.
  - constructor.
Defined.

Lemma daily_summary_answers_witness :
  ∃ summary,
    (@Rest.get_daily_summary Sample.failing Scenario.day Scenario.chatted_world).1
    = {| code := 200; reply := ReplySummary summary |}
    ∧ totalChats summary = 1
    ∧ goalsCompleted summary = 0
    ∧ insights summary = Gemini.insights_when_failed.
Proof.
  destruct (@daily_summary_answers Sample.failing Scenario.day Scenario.chatted_world)
    as (summary & Hrun & _ & Hchats & Hgoals & _ & _ & Hinsights).
  exists summary. split_and!.
  - by rewrite Hrun.
  - rewrite Hchats. vm_compute. reflexivity.
  - rewrite Hgoals. vm_compute. reflexivity.
  - apply Hinsights. reflexivity.
Defined.
